(** * Ocularum: policy store, stream registry and autotune admission

    A shallow embedding of [src/python/autotune/manager.py]
    ([AutotuneManager]) and [src/python/streamlink/stream_handler.py]
    ([StreamHandler]).

    Conventions of the embedding:
    - Python [dict]s keyed by strings are [gmap string _]; Python [set]s of
      strings are [gset string].  The iteration order of a Python set is
      unspecified, so every function that iterates over a set takes the
      order as a parameter [set_iter].
    - Identifiers are ASCII strings (Twitch logins); [lower] is
      [str.lower] on them.
    - Values found in the untyped per-streamer settings dictionaries are
      [value]s; [truthy] is Python truthiness.
    - The operating system (file I/O, process spawning, the random part
      of a stream id, the clock) is an explicit input of each call.
    - An exception that escapes a method is a [Raise] result; state
      changes made before it are kept, as in Python. *)

From Stdlib Require Import ZArith String Ascii List Lia Bool.
From stdpp Require Import base option gmap strings list fin_maps fin_sets pretty.

Open Scope string_scope.
Open Scope Z_scope.

(** ** Python strings and values *)

Module Py.

(** [str.lower] on one ASCII character: 'A'..'Z' are shifted by 32. *)
Definition lower_char (c : ascii) : ascii :=
  let n := N_of_ascii c in
  if ((65 <=? n) && (n <=? 90))%N then ascii_of_N (n + 32) else c.

Fixpoint lower (s : string) : string :=
  match s with
  | EmptyString => EmptyString
  | String c r => String (lower_char c) (lower r)
  end.

(** A value stored in a settings dictionary (what [json.load] yields for
    the scalar members of a streamer's settings). *)
Inductive value :=
| VNone
| VBool (b : bool)
| VInt (n : Z)
| VStr (s : string).

#[export] Instance value_eq_dec : EqDecision value.
Proof. solve_decision. Defined.

(** Truthiness, as tested by [if v:]. *)
Definition truthy (v : value) : bool :=
  match v with
  | VNone => false
  | VBool b => b
  | VInt n => negb (n =? 0)
  | VStr s => negb (String.eqb s "")
  end.

(** [type(v).__name__]. *)
Definition type_name (v : value) : string :=
  match v with
  | VNone => "NoneType"
  | VBool _ => "bool"
  | VInt _ => "int"
  | VStr _ => "str"
  end.

(** [str(v)], as an f-string formats [v]. *)
Definition str (v : value) : string :=
  match v with
  | VNone => "None"
  | VBool true => "True"
  | VBool false => "False"
  | VInt n => pretty n
  | VStr s => s
  end.

(** [' '.join(l)] raises [TypeError] at the first item that is not a
    string; this is the text of that exception ([None] when every item is
    a string and the join succeeds). *)
Fixpoint join_error (i : nat) (l : list value) : option string :=
  match l with
  | [] => None
  | VStr _ :: rest => join_error (S i) rest
  | v :: _ =>
      Some ("sequence item " +:+ pretty i +:+ ": expected str instance, "
              +:+ type_name v +:+ " found")
  end.

(** [d.get(k, default)]. *)
Definition get {V} (d : gmap string V) (k : string) (default : V) : V :=
  match d !! k with
  | Some v => v
  | None => default
  end.

(** [d.update(e)]: every key of [e] is written into [d]. *)
Definition update {V} (d e : gmap string V) : gmap string V := e ∪ d.

(** [l[:k]] for a possibly negative [k]: a negative bound counts from the
    end of the list. *)
Definition slice_to {A} (k : Z) (l : list A) : list A :=
  if k <? 0 then take (Z.to_nat (Z.of_nat (length l) + k)) l
  else take (Z.to_nat k) l.

(** The exceptions that matter here.  [IOError] is an alias of [OSError];
    [OtherError] stands for any class outside the handlers' lists. *)
Inductive exn :=
| KeyError (key : string)
| JSONDecodeError
| IOError
| OtherError (name : string).

Inductive result (A : Type) :=
| Ok (a : A)
| Raise (e : exn).
Arguments Ok {A} a.
Arguments Raise {A} e.

End Py.

Import Py.

(** A streamer's settings dictionary and the store of all of them. *)
Abbreviation policy := (gmap string value).
Abbreviation store := (gmap string (gmap string value)).

(** ** The persisted settings document *)

Record notification_settings := {
  enabled : bool;
  sound : bool;
  popup : bool
}.

(** The settings dictionary, with the keys the manager reads.  Each key
    may be missing from a document that was read from disk. *)
Record settings_doc := {
  doc_autotuned_streamers : option store;
  doc_check_interval : option Z;
  doc_max_concurrent_streams : option Z;
  doc_default_quality : option string;
  doc_auto_start_on_boot : option bool;
  doc_notification_settings : option notification_settings
}.

(** The settings file as the manager sees it. *)
Inductive file :=
| Missing                      (* os.path.exists(settings_path) is false *)
| Document (d : settings_doc)  (* open and json.load succeed and yield d *)
| Unloadable (e : exn).        (* open or json.load raises e *)

(** What an attempt to write the file does: it succeeds, or it raises
    [IOError] and leaves the file in some state. *)
Inductive write_outcome :=
| Written
| WriteFails (left_behind : file).

(** ** AutotuneManager: state *)

Record AutotuneManager := {
  settings : settings_doc;
  autotuned_streamers : store;
  check_interval : Z;
  max_concurrent_streams : Z;
  default_quality : string;
  notification_callback : bool;      (* whether a callback was supplied *)
  _running : bool;
  _check_task : option nat;          (* handle of the loop task *)
  _last_check_time : Z;
  _currently_live : gset string
}.

Definition set_autotuned_streamers (s : store) (self : AutotuneManager) :=
  {| settings := settings self;
     autotuned_streamers := s;
     check_interval := check_interval self;
     max_concurrent_streams := max_concurrent_streams self;
     default_quality := default_quality self;
     notification_callback := notification_callback self;
     _running := _running self;
     _check_task := _check_task self;
     _last_check_time := _last_check_time self;
     _currently_live := _currently_live self |}.

Definition set_currently_live (l : gset string) (self : AutotuneManager) :=
  {| settings := settings self;
     autotuned_streamers := autotuned_streamers self;
     check_interval := check_interval self;
     max_concurrent_streams := max_concurrent_streams self;
     default_quality := default_quality self;
     notification_callback := notification_callback self;
     _running := _running self;
     _check_task := _check_task self;
     _last_check_time := _last_check_time self;
     _currently_live := l |}.

Definition set_running (r : bool) (t : option nat) (self : AutotuneManager) :=
  {| settings := settings self;
     autotuned_streamers := autotuned_streamers self;
     check_interval := check_interval self;
     max_concurrent_streams := max_concurrent_streams self;
     default_quality := default_quality self;
     notification_callback := notification_callback self;
     _running := r;
     _check_task := t;
     _last_check_time := _last_check_time self;
     _currently_live := _currently_live self |}.

(** ** AutotuneManager: settings file *)

Definition default_notification_settings : notification_settings :=
  {| enabled := true; sound := true; popup := true |}.

(** The literal dictionary of [_load_settings] (it occurs twice there). *)
Definition default_settings : settings_doc :=
  {| doc_autotuned_streamers := Some ∅;
     doc_check_interval := Some 60;
     doc_max_concurrent_streams := Some 4;
     doc_default_quality := Some "best";
     doc_auto_start_on_boot := Some true;
     doc_notification_settings := Some default_notification_settings |}.

(** The [try: open(..., 'w'); json.dump(...)] block shared by every call
    of [_save_settings]. *)
Definition write_file (d : settings_doc) (w : write_outcome) : bool * file :=
  match w with
  | Written => (true, Document d)
  | WriteFails left_behind => (false, left_behind)
  end.

(** The document [_save_settings] builds when called without argument. *)
Definition current_settings (self : AutotuneManager) : settings_doc :=
  {| doc_autotuned_streamers := Some (autotuned_streamers self);
     doc_check_interval := Some (check_interval self);
     doc_max_concurrent_streams := Some (max_concurrent_streams self);
     doc_default_quality := Some (default_quality self);
     doc_auto_start_on_boot :=
       Some (default true (doc_auto_start_on_boot (settings self)));
     doc_notification_settings :=
       Some (default default_notification_settings
               (doc_notification_settings (settings self))) |}.

Definition _save_settings (self : AutotuneManager)
    (arg : option settings_doc) (w : write_outcome) : bool * file :=
  match arg with
  | None => write_file (current_settings self) w
  | Some d => write_file d w
  end.

(** [_load_settings] runs inside [__init__], before any field but
    [settings_path] is set; it only uses the file.  Its call
    [self._save_settings(default_settings)] passes the document, so only
    the write block of [_save_settings] runs, and its result is dropped. *)
Definition _load_settings (f : file) (w : write_outcome)
    : result settings_doc * file :=
  match f with
  | Missing =>
      let '(_, f') := write_file default_settings w in
      (Ok default_settings, f')
  | Document d => (Ok d, f)
  | Unloadable JSONDecodeError => (Ok default_settings, f)
  | Unloadable IOError => (Ok default_settings, f)
  | Unloadable e => (Raise e, f)
  end.

(** [__init__]: load the settings and read the fields off them.
    ([os.makedirs] on the settings directory is taken to succeed.) *)
Definition __init__ (callback : bool) (f : file) (w : write_outcome)
    : result AutotuneManager * file :=
  match _load_settings f w with
  | (Raise e, f') => (Raise e, f')
  | (Ok d, f') =>
      (Ok {| settings := d;
             autotuned_streamers := default ∅ (doc_autotuned_streamers d);
             check_interval := default 60 (doc_check_interval d);
             max_concurrent_streams := default 4 (doc_max_concurrent_streams d);
             default_quality := default "best" (doc_default_quality d);
             notification_callback := callback;
             _running := false;
             _check_task := None;
             _last_check_time := 0;
             _currently_live := ∅ |}, f')
  end.

(** ** AutotuneManager: the policy store *)

(** The dictionary [add_autotuned_streamer] builds when [settings] is
    [None]. *)
Definition default_policy (self : AutotuneManager) : policy :=
  {[ "quality" := VStr (default_quality self);
     "notifications" := VBool true;
     "auto_start" := VBool true ]}.

Definition add_autotuned_streamer (self : AutotuneManager)
    (username : string) (settings : option policy) (w : write_outcome)
    : bool * AutotuneManager * file :=
  let username := lower username in
  let settings :=
    match settings with
    | None => default_policy self
    | Some s => s
    end in
  let self := set_autotuned_streamers
                (<[username := settings]> (autotuned_streamers self)) self in
  let '(ok, f) := _save_settings self None w in
  (ok, self, f).

(** When the streamer is not tracked nothing is written: the file stays
    as it is ([f]). *)
Definition remove_autotuned_streamer (self : AutotuneManager)
    (username : string) (w : write_outcome) (f : file)
    : bool * AutotuneManager * file :=
  let username := lower username in
  match autotuned_streamers self !! username with
  | Some _ =>
      let self := set_autotuned_streamers
                    (delete username (autotuned_streamers self)) self in
      let '(ok, f') := _save_settings self None w in
      (ok, self, f')
  | None => (false, self, f)
  end.

Definition update_streamer_settings (self : AutotuneManager)
    (username : string) (settings : policy) (w : write_outcome) (f : file)
    : bool * AutotuneManager * file :=
  let username := lower username in
  match autotuned_streamers self !! username with
  | Some stored =>
      let self := set_autotuned_streamers
                    (<[username := update stored settings]>
                       (autotuned_streamers self)) self in
      let '(ok, f') := _save_settings self None w in
      (ok, self, f')
  | None => (false, self, f)
  end.

Definition get_autotuned_streamers (self : AutotuneManager) : store :=
  autotuned_streamers self.

(** ** StreamHandler *)

Record session := {
  process : nat;          (* the process handle *)
  channel : string;
  quality : value;
  start_time : Z
}.

Record StreamHandler := {
  streamlink_path : string;
  active_streams : gmap string session
}.

Definition set_active_streams (a : gmap string session) (self : StreamHandler) :=
  {| streamlink_path := streamlink_path self; active_streams := a |}.

(** What [asyncio.create_subprocess_exec] does. *)
Inductive spawn_outcome :=
| Spawned (proc : nat)
| SpawnRaises (message : string).

(** The environment of one [start_stream] call: [os.urandom(4).hex()],
    the spawn and the clock. *)
Record launch_env := {
  nonce : string;
  spawn : spawn_outcome;
  now : Z
}.

(** The command line built by [start_stream]. *)
Definition command (self : StreamHandler) (channel : string) (quality : value)
    (output_params : gmap string value) : list value :=
  let url := "https://twitch.tv/" +:+ channel in
  let cmd := [VStr (streamlink_path self); VStr url; quality;
              VStr "--twitch-disable-ads"] in
  match output_params !! "player" with
  | Some p =>
      let cmd := (cmd ++ [VStr "--player"; p])%list in
      match output_params !! "player_args" with
      | Some a => (cmd ++ [VStr "--player-args"; a])%list
      | None => cmd
      end
  | None => cmd
  end.

Definition start_stream (self : StreamHandler) (channel : string)
    (quality : value) (output_params : gmap string value) (env : launch_env)
    : (bool * string) * StreamHandler :=
  if decide (channel = "") then ((false, "Channel name is required"), self)
  else
    let stream_id := channel +:+ "_" +:+ str quality +:+ "_" +:+ nonce env in
    let cmd := command self channel quality output_params in
    (* try: *)
    match join_error 0 cmd with
    | Some message => ((false, message), self)  (* except Exception *)
    | None =>
        match spawn env with
        | SpawnRaises message => ((false, message), self)  (* except Exception *)
        | Spawned proc =>
            let entry := {| process := proc; channel := channel;
                            quality := quality; start_time := now env |} in
            ((true, stream_id),
             set_active_streams (<[stream_id := entry]> (active_streams self)) self)
        end
    end.

(** The environment of one [stop_stream] call.  [monitor_ran] says
    whether [_monitor_stream] removed the entry while [stop_stream] was
    waiting for the process. *)
Record stop_env := {
  terminate_raises : bool;
  exits_in_time : bool;
  kill_raises : bool;
  monitor_ran : bool
}.

Definition stop_stream (self : StreamHandler) (stream_id : string)
    (env : stop_env) : bool * StreamHandler :=
  match active_streams self !! stream_id with
  | None => (false, self)
  | Some _ =>
      (* try: *)
      if terminate_raises env then (false, self)  (* except Exception *)
      else
        let self :=
          if monitor_ran env
          then set_active_streams (delete stream_id (active_streams self)) self
          else self in
        if negb (exits_in_time env) && kill_raises env
        then (false, self)  (* except Exception *)
        else
          (* if stream_id in self.active_streams: del ... *)
          (true, set_active_streams (delete stream_id (active_streams self)) self)
  end.

(** One entry of the dictionary [get_active_streams] returns. *)
Record stream_details := {
  details_channel : string;
  details_quality : value;
  details_start_time : Z;
  details_runtime : Z
}.

Definition get_active_streams (self : StreamHandler) (now : Z)
    : gmap string stream_details :=
  (λ d, {| details_channel := channel d;
           details_quality := quality d;
           details_start_time := start_time d;
           details_runtime := now - start_time d |}) <$> active_streams self.

(** ** AutotuneManager: one admission step *)

Section Admission.

(** The order in which a [for] loop visits a set. *)
Variable set_iter : gset string → list string.

(** The loop that fills [streams_to_start]; the second component lists
    the usernames passed to the notification callback, in call order. *)
Fixpoint select (self : AutotuneManager) (active_channels : gset string)
    (newly_live : list string) : list string * list string :=
  match newly_live with
  | [] => ([], [])
  | username :: rest =>
      let '(to_start, notified) := select self active_channels rest in
      if decide (lower username ∈ active_channels) then (to_start, notified)
      else
        let streamer_settings :=
          get (autotuned_streamers self) (lower username) ∅ in
        if truthy (get streamer_settings "auto_start" (VBool true)) then
          (username :: to_start,
           if truthy (get streamer_settings "notifications" (VBool true))
              && notification_callback self
           then username :: notified else notified)
        else (to_start, notified)
  end.

(** The loop that starts the streams.  [env i] is the environment of
    the [i]-th call of [start_stream]. *)
Fixpoint start_all (self : AutotuneManager) (env : nat → launch_env)
    (i : nat) (streams_to_start : list string) (handler : StreamHandler)
    (started_stream_ids : list string)
    : result (list string) * StreamHandler :=
  match streams_to_start with
  | [] => (Ok started_stream_ids, handler)
  | username :: rest =>
      match autotuned_streamers self !! username with
      | None => (Raise (KeyError username), handler)
      | Some streamer_settings =>
          let quality :=
            get streamer_settings "quality" (VStr (default_quality self)) in
          let '((success, stream_id), handler) :=
            start_stream handler username quality ∅ (env i) in
          start_all self env (S i) rest handler
            (if success then (started_stream_ids ++ [stream_id])%list
             else started_stream_ids)
      end
  end.

(** The set comprehension that builds [active_channels]. *)
Definition active_channels_of (active_streams : gmap string stream_details)
    : gset string :=
  list_to_set ((λ kv, lower (details_channel kv.2))
                 <$> map_to_list active_streams).

(** The [if] that limits the number of concurrent streams. *)
Definition limit (self : AutotuneManager) (active : nat)
    (streams_to_start : list string) : list string :=
  if Z.of_nat active + Z.of_nat (length streams_to_start)
       >? max_concurrent_streams self
  then slice_to (max_concurrent_streams self - Z.of_nat active)
         streams_to_start
  else streams_to_start.

(** The result of [start_autotuned_streams]: what it returns or raises,
    the callback calls it made, and the two objects it changed. *)
Record tick_result := {
  returned : result (list string);
  notifications : list string;
  manager_after : AutotuneManager;
  handler_after : StreamHandler
}.

Definition start_autotuned_streams (self : AutotuneManager)
    (handler : StreamHandler) (live_streamers : gset string)
    (clock : Z) (env : nat → launch_env) : tick_result :=
  if decide (live_streamers = ∅) then
    {| returned := Ok []; notifications := [];
       manager_after := self; handler_after := handler |}
  else
    let newly_live := live_streamers ∖ _currently_live self in
    let self := set_currently_live live_streamers self in
    let active_streams := get_active_streams handler clock in
    let active_channels := active_channels_of active_streams in
    let '(streams_to_start, notified) :=
      select self active_channels (set_iter newly_live) in
    let streams_to_start :=
      limit self (size active_streams) streams_to_start in
    let '(r, handler') := start_all self env 0 streams_to_start handler [] in
    {| returned := r; notifications := notified;
       manager_after := self; handler_after := handler' |}.

End Admission.

(** ** The reconciliation loop as an asyncio task

    [start] hands the coroutine [_check_loop] to the event loop as a task;
    the manager keeps its handle in [_check_task].  A task only runs when
    the event loop resumes it, and it runs until its next [await] that
    has to wait.  [stop] is an ordinary method: while it runs the loop
    task is suspended at one of its [await]s.

    [Task.cancel] marks the task; the next time the event loop resumes
    the task, [CancelledError] is raised at the [await] where it is
    suspended.  [CancelledError] derives from [BaseException] (Python 3.8
    and later), so no [except Exception] clause catches it: neither the
    one around the tick in [_check_loop] nor those inside the tick. *)

(** Where [_check_loop] is suspended. *)
Inductive await_point :=
| AtStart                     (* created, not yet run *)
| InTick (pending : nat)      (* inside [await self.check_and_start_streams()],
                                 with [pending] more waits before it returns *)
| InSleep.                    (* in [await asyncio.sleep(self.check_interval)] *)

Inductive task_state :=
| Suspended (at_ : await_point) (must_cancel : bool)
| Cancelled
| Finished.

Record task := {
  state : task_state;
  ticks_completed : nat   (* how often [check_and_start_streams] returned *)
}.

Record runtime := {
  manager : AutotuneManager;
  tasks : gmap nat task
}.

(** [Task.cancel()]: a task that is done is left alone. *)
Definition cancel (t : task) : task :=
  match state t with
  | Suspended p _ =>
      {| state := Suspended p true; ticks_completed := ticks_completed t |}
  | _ => t
  end.

Definition start (r : runtime) : runtime :=
  if _running (manager r) then r
  else
    let handle := fresh (dom (tasks r)) in
    {| manager := set_running true (Some handle) (manager r);
       tasks := <[handle := {| state := Suspended AtStart false;
                               ticks_completed := 0 |}]> (tasks r) |}.

Definition stop (r : runtime) : runtime :=
  if negb (_running (manager r)) then r
  else
    match _check_task (manager r) with
    | Some handle =>
        {| manager := set_running false None (manager r);
           tasks := alter cancel handle (tasks r) |}
    | None =>
        {| manager := set_running false None (manager r);
           tasks := tasks r |}
    end.

(** The head of [while self._running:], entered when the task first runs
    and after each sleep.  [waits] is the number of times the tick that
    begins now will have to wait ([0]: it returns without waiting, and the
    task goes on to the sleep). *)
Definition loop_head (running : bool) (waits : nat) (done : nat) : task :=
  if running then
    match waits with
    | O => {| state := Suspended InSleep false; ticks_completed := S done |}
    | S k => {| state := Suspended (InTick k) false; ticks_completed := done |}
    end
  else {| state := Finished; ticks_completed := done |}.

(** One resumption of the coroutine [_check_loop]: it runs from the wait
    where it is suspended to its next wait. *)
Definition _check_loop (running : bool) (waits : nat) (t : task) : task :=
  match state t with
  | Suspended p must_cancel =>
      if must_cancel then
        (* CancelledError is raised at the await and escapes the loop *)
        {| state := Cancelled; ticks_completed := ticks_completed t |}
      else
        match p with
        | AtStart | InSleep => loop_head running waits (ticks_completed t)
        | InTick (S k) =>
            {| state := Suspended (InTick k) false;
               ticks_completed := ticks_completed t |}
        | InTick O =>
            (* the tick returns; the task goes on to the sleep *)
            {| state := Suspended InSleep false;
               ticks_completed := S (ticks_completed t) |}
        end
  | Cancelled | Finished => t
  end.

Definition resume (handle : nat) (waits : nat) (r : runtime) : runtime :=
  {| manager := manager r;
     tasks := alter (_check_loop (_running (manager r)) waits) handle (tasks r) |}.

(** The event loop resumes the task [n] times; [waits i] is the length of
    a tick that begins at the [i]-th resumption. *)
Fixpoint run (handle : nat) (waits : nat → nat) (n : nat) (r : runtime)
    : runtime :=
  match n with
  | O => r
  | S n => run handle (λ i, waits (S i)) n (resume handle (waits O) r)
  end.

(** ** Sequences of calls on the policy store *)

Inductive call :=
| Add (username : string) (settings : option policy)
| Update (username : string) (settings : policy)
| Remove (username : string).

(** One call, with the outcome of its write. *)
Definition perform (c : call) (w : write_outcome)
    (st : AutotuneManager * file) : bool * (AutotuneManager * file) :=
  let '(self, f) := st in
  let '(ok, self, f) :=
    match c with
    | Add u s => add_autotuned_streamer self u s w
    | Update u s => update_streamer_settings self u s w f
    | Remove u => remove_autotuned_streamer self u w f
    end in
  (ok, (self, f)).

Fixpoint perform_all (cs : list (call * write_outcome))
    (st : AutotuneManager * file) : AutotuneManager * file :=
  match cs with
  | [] => st
  | (c, w) :: rest => perform_all rest (perform c w st).2
  end.

(** The policy mapping as the specification describes it: a mapping keyed
    case-insensitively, so that a lookup under any spelling of an
    identifier finds the entry.  [add] sets the entry, [update] merges
    into an existing entry, [remove] deletes it. *)
Module Spec.

Definition mapping := string → option policy.

(** An upper-case letter: 'A' to 'Z'. *)
Definition upper (c : ascii) : bool :=
  ((65 <=? N_of_ascii c) && (N_of_ascii c <=? 90))%N.

(** Two characters that are equal or are the upper-case and the lower-case
    form of one letter ('a' is 'A' + 32). *)
Definition same_char (c d : ascii) : bool :=
  Ascii.eqb c d
  || (upper c && (N_of_ascii d =? N_of_ascii c + 32)%N)
  || (upper d && (N_of_ascii c =? N_of_ascii d + 32)%N).

(** Two identifiers that differ at most in the case of their letters. *)
Fixpoint same (a b : string) : bool :=
  match a, b with
  | EmptyString, EmptyString => true
  | String c a', String d b' => same_char c d && same a' b'
  | _, _ => false
  end.

(** An identifier without upper-case letters. *)
Fixpoint lower_case (k : string) : bool :=
  match k with
  | EmptyString => true
  | String c k' => negb (upper c) && lower_case k'
  end.

(** What an add sets the entry to: the mapping that is passed, or the
    entry built from the defaults when none is. *)
Definition fill (dq : string) (s : option policy) : policy :=
  match s with
  | Some s => s
  | None => {[ "quality" := VStr dq; "notifications" := VBool true;
               "auto_start" := VBool true ]}
  end.

Definition apply (dq : string) (c : call) (m : mapping) : mapping :=
  match c with
  | Add u s => λ k, if same k u then Some (fill dq s) else m k
  | Update u s =>
      λ k, if same k u then (λ old, s ∪ old) <$> m k else m k
  | Remove u => λ k, if same k u then None else m k
  end.

Fixpoint apply_all (dq : string) (cs : list call) (m : mapping) : mapping :=
  match cs with
  | [] => m
  | c :: rest => apply_all dq rest (apply dq c m)
  end.

End Spec.

(** Every key of the store is in normal form: it has no upper-case
    letter. *)
Definition normalized (s : store) : Prop :=
  ∀ k, is_Some (s !! k) → Spec.lower_case k = true.

(** The 256 characters. *)
Definition all_chars : list ascii := map ascii_of_nat (seq 0 256).

(** ** Notions used in the statements *)

(** The fallback cases of the file: it is missing, it cannot be decoded,
    or it cannot be read. *)
Definition absent_or_damaged (f : file) : Prop :=
  f = Missing ∨ f = Unloadable JSONDecodeError ∨ f = Unloadable IOError.

(** What [add_autotuned_streamer] stores under the normalized name. *)
Definition added_policy (self : AutotuneManager) (settings : option policy)
    : policy :=
  match settings with
  | None => default_policy self
  | Some s => s
  end.

(** A manager with an empty store, as [__init__] builds it from the
    default settings. *)
Definition fresh_manager : AutotuneManager :=
  {| settings := default_settings;
     autotuned_streamers := ∅;
     check_interval := 60;
     max_concurrent_streams := 4;
     default_quality := "best";
     notification_callback := false;
     _running := false;
     _check_task := None;
     _last_check_time := 0;
     _currently_live := ∅ |}.


(** The store and the case-insensitive mapping agree on every spelling. *)
Definition agrees (s : store) (m : Spec.mapping) : Prop :=
  ∀ k, s !! lower k = m k.

(** A handler with [n] sessions that were started by hand. *)
Definition manual_session (c : string) : session :=
  {| process := 1; channel := c; quality := VStr "best"; start_time := 0 |}.

Definition five_sessions : StreamHandler :=
  {| streamlink_path := "streamlink";
     active_streams :=
       {[ "p_best_00000001" := manual_session "p";
          "q_best_00000002" := manual_session "q";
          "r_best_00000003" := manual_session "r";
          "s_best_00000004" := manual_session "s";
          "t_best_00000005" := manual_session "t" ]} |}.

Definition idle_handler : StreamHandler :=
  {| streamlink_path := "streamlink"; active_streams := ∅ |}.

(** An environment in which every spawn succeeds. *)
Definition all_spawn (i : nat) : launch_env :=
  {| nonce := pretty i; spawn := Spawned (100 + i); now := 5 |}.

(** A running manager whose loop task has handle 0 and is suspended
    inside a tick that has two more waits to go. *)
Definition mid_tick : runtime :=
  {| manager := set_running true (Some 0%nat) fresh_manager;
     tasks := {[ 0%nat := {| state := Suspended (InTick 2) false;
                             ticks_completed := 0 |} ]} |}.

(** The tick that is in flight in [r] gets to return once [stop] has been
    called: after some number of resumptions the count of completed ticks
    has grown. *)
Definition tick_completes_after_stop (r : runtime) (handle : nat) : Prop :=
  ∃ n waits t t',
    tasks r !! handle = Some t
    ∧ tasks (run handle waits n (stop r)) !! handle = Some t'
    ∧ (ticks_completed t < ticks_completed t')%nat.


(** ** StreamHandler: exit monitor and shutdown *)

(** The part of [_monitor_stream] that runs once the process has ended:
    the entry is deleted if it is still there. *)
Definition _monitor_stream_cleanup (self : StreamHandler) (stream_id : string)
    : StreamHandler :=
  match active_streams self !! stream_id with
  | Some _ =>
      set_active_streams (delete stream_id (active_streams self)) self
  | None => self
  end.

(** What [process.communicate()] hands back for one of the two pipes: no
    bytes, bytes that decode as UTF-8, or bytes that do not. *)
Inductive pipe_output :=
| NoOutput
| Decodable
| Undecodable.

Record monitor_env := {
  stdout : pipe_output;
  stderr : pipe_output
}.

(** [_monitor_stream] looks the id up when it starts and returns at once
    when it is unknown; otherwise it waits for the process, logs what the
    process wrote, and then cleans up.  Other code runs during the wait,
    so the handler it cleans up ([at_exit]) need not be the one it started
    with ([at_start]).  The log messages are f-strings that call
    [stdout.decode()] and [stderr.decode()] on output that is not empty;
    on bytes that are not UTF-8 the call raises [UnicodeDecodeError], which
    nothing catches, and the cleanup is not reached. *)
Definition _monitor_stream (at_start : StreamHandler) (stream_id : string)
    (env : monitor_env) (at_exit : StreamHandler)
    : result unit * StreamHandler :=
  match active_streams at_start !! stream_id with
  | None => (Ok (), at_exit)
  | Some _ =>
      match stdout env with
      | Undecodable => (Raise (OtherError "UnicodeDecodeError"), at_exit)
      | _ =>
          match stderr env with
          | Undecodable => (Raise (OtherError "UnicodeDecodeError"), at_exit)
          | _ => (Ok (), _monitor_stream_cleanup at_exit stream_id)
          end
      end
  end.

(** Output that the monitor can log. *)
Definition loggable (env : monitor_env) : Prop :=
  stdout env ≠ Undecodable ∧ stderr env ≠ Undecodable.

Section Close.

(** The order in which [list(d.keys())] lists the keys of a dictionary. *)
Variable dict_keys : gmap string session → list string.

(** The loop of [close]; [env id] is the environment of the call
    [stop_stream(id)]. *)
Fixpoint stop_each (self : StreamHandler) (env : string → stop_env)
    (stream_ids : list string) : StreamHandler :=
  match stream_ids with
  | [] => self
  | stream_id :: rest =>
      stop_each (stop_stream self stream_id (env stream_id)).2 env rest
  end.

Definition close (self : StreamHandler) (env : string → stop_env)
    : StreamHandler :=
  let stream_ids := dict_keys (active_streams self) in
  stop_each self env stream_ids.

End Close.

(** ** TwitchIntegration *)

(** [client] says whether [self.twitch], the API client, has been set by
    [initialize]. *)
Record TwitchIntegration := {
  client : bool
}.

(** The remote service behind the API client: the first user with a given
    login or id (as the [__dict__] of the user object), and the streams of
    a list of user ids (as their [__dict__]s).  Each call may raise. *)
Record remote := {
  users_by_login : string → result (option (gmap string value));
  users_by_id : string → result (option (gmap string value));
  streams_of : list value → result (list (gmap string value))
}.

(** [username] and [user_id] are [""] when the argument is left out. *)
Definition get_user_info (self : TwitchIntegration) (api : remote)
    (username user_id : string) : option (gmap string value) :=
  if negb (client self) then None
  else if (String.eqb username "" && String.eqb user_id "")%bool then None
  else
    (* try: *)
    match (if negb (String.eqb username "")
           then users_by_login api username
           else users_by_id api user_id) with
    | Ok (Some user) => Some user
    | Ok None => None
    | Raise _ => None  (* except Exception *)
    end.

Definition get_live_streams (self : TwitchIntegration) (api : remote)
    (user_ids : list value) : list (gmap string value) :=
  if negb (client self) then []
  else
    match user_ids with
    | [] => []
    | _ =>
        (* try: *)
        match streams_of api user_ids with
        | Ok streams => streams
        | Raise _ => []  (* except Exception *)
        end
    end.

(** ** AutotuneManager: polling *)

Definition set_last_check_time (t : Z) (self : AutotuneManager) :=
  {| settings := settings self;
     autotuned_streamers := autotuned_streamers self;
     check_interval := check_interval self;
     max_concurrent_streams := max_concurrent_streams self;
     default_quality := default_quality self;
     notification_callback := notification_callback self;
     _running := _running self;
     _check_task := _check_task self;
     _last_check_time := t;
     _currently_live := _currently_live self |}.

(** The first loop of [check_live_status]: the ids of the tracked
    streamers the service knows.  [user_info["id"]] raises [KeyError]
    when the user's dictionary has no id. *)
Fixpoint collect_user_ids (twitch : TwitchIntegration) (api : remote)
    (usernames : list string) : result (list value) :=
  match usernames with
  | [] => Ok []
  | username :: rest =>
      match get_user_info twitch api username "" with
      | Some user_info =>
          if decide (user_info = ∅) then collect_user_ids twitch api rest
          else
            match user_info !! "id" with
            | None => Raise (KeyError "id")
            | Some id =>
                match collect_user_ids twitch api rest with
                | Ok ids => Ok (id :: ids)
                | Raise e => Raise e
                end
            end
      | None => collect_user_ids twitch api rest
      end
  end.

(** The second loop of [check_live_status].  [.lower()] on a login that
    is not a string raises [AttributeError]. *)
Fixpoint live_usernames_of (live_streams : list (gmap string value))
    : result (gset string) :=
  match live_streams with
  | [] => Ok ∅
  | stream :: rest =>
      match stream !! "user_login" with
      | None => live_usernames_of rest
      | Some (VStr login) =>
          match live_usernames_of rest with
          | Ok names => Ok ({[ lower login ]} ∪ names)
          | Raise e => Raise e
          end
      | Some _ => Raise (OtherError "AttributeError")
      end
  end.

Section Polling.

Variable set_iter : gset string → list string.

(** The order in which a [for] loop visits the keys of the store. *)
Variable store_keys : store → list string.

(** [twitch] is the manager's [self.twitch], [None] when it was
    constructed without one. *)
Definition check_live_status (self : AutotuneManager)
    (twitch : option TwitchIntegration) (api : remote) : gset string :=
  if decide (autotuned_streamers self = ∅) then ∅
  else
    match twitch with
    | None => ∅
    | Some twitch =>
        (* try: *)
        match collect_user_ids twitch api
                (store_keys (autotuned_streamers self)) with
        | Raise _ => ∅  (* except Exception *)
        | Ok user_ids =>
            let live_streams := get_live_streams twitch api user_ids in
            match live_usernames_of live_streams with
            | Raise _ => ∅  (* except Exception *)
            | Ok live_usernames => live_usernames
            end
        end
    end.

(** [time] is the reading of [time.time()]. *)
Definition check_and_start_streams (self : AutotuneManager)
    (handler : StreamHandler) (twitch : option TwitchIntegration)
    (api : remote) (time : Z) (clock : Z) (env : nat → launch_env)
    : tick_result :=
  let self := set_last_check_time time self in
  let live_streamers := check_live_status self twitch api in
  start_autotuned_streams set_iter self handler live_streamers clock env.

End Polling.

(** ** Notions used in the further statements *)

(** The id [start_stream] gives a stream. *)
Definition stream_id_of (channel : string) (quality : value)
    (env : launch_env) : string :=
  channel +:+ "_" +:+ str quality +:+ "_" +:+ nonce env.

(** A stop attempt in which [terminate] or [kill] raises. *)
Definition stop_raises (env : stop_env) : bool :=
  terminate_raises env || (negb (exits_in_time env) && kill_raises env).

(** A stop environment in which nothing raises and the process ends in
    time. *)
Definition clean_stop : stop_env :=
  {| terminate_raises := false; exits_in_time := true;
     kill_raises := false; monitor_ran := false |}.

(** A service that knows nobody and reports no stream. *)
Definition silent_service : remote :=
  {| users_by_login := λ _, Ok None;
     users_by_id := λ _, Ok None;
     streams_of := λ _, Ok [] |}.

(** A service whose stream query fails. *)
Definition failing_service : remote :=
  {| users_by_login := λ u, Ok (Some {[ "id" := VStr ("id-" +:+ u) ]});
     users_by_id := λ _, Ok None;
     streams_of := λ _, Raise (OtherError "TwitchAPIException") |}.

(** * Properties *)

(** ** Normal form of identifiers *)

Lemma lower_char_idem c : lower_char (lower_char c) = lower_char c.
Proof. destruct c as [[] [] [] [] [] [] [] []]; vm_compute; reflexivity. Qed.

Lemma lower_idem s : lower (lower s) = lower s.
Proof.
  induction s as [|c r IH]; simpl; [reflexivity|].
  rewrite lower_char_idem, IH. reflexivity.
Qed.

(** ** The settings file *)

Lemma write_file_ok d w :
  (write_file d w).1 = true ↔ w = Written.
Proof. destruct w; simpl; split; intros; congruence. Qed.

Lemma write_file_written d : write_file d Written = (true, Document d).
Proof. reflexivity. Qed.

(** The part of C10 that holds.  When the settings file is missing, or
    reading it fails with [JSONDecodeError] or [IOError], the two classes
    the handler names, [_load_settings] does not raise, whatever happens
    to the write of the defaults: it returns the default document, whose
    store is empty and whose [check_interval], [max_concurrent_streams]
    and [default_quality] are 60, 4 and "best"; [__init__] then completes
    with an empty store and these values. *)
Theorem load_settings_falls_back (f : file) (w : write_outcome) (callback : bool) :
  absent_or_damaged f →
  (_load_settings f w).1 = Ok default_settings
  ∧ doc_autotuned_streamers default_settings = Some ∅
  ∧ doc_check_interval default_settings = Some 60
  ∧ doc_max_concurrent_streams default_settings = Some 4
  ∧ doc_default_quality default_settings = Some "best"
  ∧ ∃ self, (__init__ callback f w).1 = Ok self
      ∧ autotuned_streamers self = ∅
      ∧ check_interval self = 60
      ∧ max_concurrent_streams self = 4
      ∧ default_quality self = "best".
Proof.
  intros Hf.
  assert (Hload : (_load_settings f w).1 = Ok default_settings).
  { destruct Hf as [-> | [-> | ->]]; [|reflexivity..].
    unfold _load_settings. destruct (write_file default_settings w). reflexivity. }
  split; [exact Hload|]. do 4 (split; [reflexivity|]).
  unfold __init__. destruct (_load_settings f w) as [r f'] eqn:E.
  simpl in Hload. subst r. eexists. split; [reflexivity|]. simpl. auto.
Qed.

Lemma load_settings_falls_back_witness :
  (_load_settings (Unloadable JSONDecodeError) (WriteFails Missing)).1
    = Ok default_settings
  ∧ (_load_settings Missing (WriteFails Missing)).1 = Ok default_settings.
Proof.
  split.
  - apply (load_settings_falls_back (Unloadable JSONDecodeError)
             (WriteFails Missing) false). right. left. reflexivity.
  - apply (load_settings_falls_back Missing (WriteFails Missing) false).
    left. reflexivity.
Defined.

(** C10 fails for a settings file that exists but whose bytes are not
    text in the default encoding (a file holding the single byte 0xFF,
    say).  Reading it raises [UnicodeDecodeError], a [ValueError] that is
    neither [JSONDecodeError] nor [IOError]; the handler of
    [_load_settings] lets it through, so [_load_settings] raises, the
    file is left as it is, and [__init__] does not complete. *)
Theorem undecodable_file_escapes_handler (w : write_outcome) (callback : bool) :
  let garbled := Unloadable (OtherError "UnicodeDecodeError") in
  _load_settings garbled w
    = (Raise (OtherError "UnicodeDecodeError"), garbled)
  ∧ (__init__ callback garbled w).1 = Raise (OtherError "UnicodeDecodeError")
  ∧ (_load_settings garbled w).1 ≠ Ok default_settings.
Proof. cbv zeta. split; [reflexivity|]. split; [reflexivity|discriminate]. Qed.

(** ** The policy store *)

Lemma default_policy_fields self :
  default_policy self !! "quality" = Some (VStr (default_quality self))
  ∧ default_policy self !! "notifications" = Some (VBool true)
  ∧ default_policy self !! "auto_start" = Some (VBool true).
Proof. unfold default_policy. repeat split; by simplify_map_eq. Qed.

(** The three store methods end in the same write; this unfolds one of
    them down to [write_file] and splits on what the write returns. *)
Ltac unfold_store_method :=
  unfold add_autotuned_streamer, remove_autotuned_streamer,
    update_streamer_settings, _save_settings, added_policy;
  repeat match goal with
         | |- context [match ?m !! ?k with _ => _ end] => destruct (m !! k)
         | |- context [match ?s with Some _ => _ | None => _ end] =>
             is_var s; destruct s
         end;
  simpl; try reflexivity;
  match goal with
  | |- context [write_file ?d ?w] => destruct (write_file d w); reflexivity
  end.

Lemma add_autotuned_streamer_eq self username settings w :
  add_autotuned_streamer self username settings w
  = let self' := set_autotuned_streamers
                   (<[lower username := added_policy self settings]>
                      (autotuned_streamers self)) self in
    ((write_file (current_settings self') w).1, self',
     (write_file (current_settings self') w).2).
Proof. unfold_store_method. Qed.

Lemma remove_autotuned_streamer_eq self username w f :
  remove_autotuned_streamer self username w f
  = match autotuned_streamers self !! lower username with
    | Some _ =>
        let self' := set_autotuned_streamers
                       (delete (lower username) (autotuned_streamers self))
                       self in
        ((write_file (current_settings self') w).1, self',
         (write_file (current_settings self') w).2)
    | None => (false, self, f)
    end.
Proof. unfold_store_method. Qed.

Lemma update_streamer_settings_eq self username settings w f :
  update_streamer_settings self username settings w f
  = match autotuned_streamers self !! lower username with
    | Some stored =>
        let self' := set_autotuned_streamers
                       (<[lower username := update stored settings]>
                          (autotuned_streamers self)) self in
        ((write_file (current_settings self') w).1, self',
         (write_file (current_settings self') w).2)
    | None => (false, self, f)
    end.
Proof. unfold_store_method. Qed.

(** C4, as the code has it.  [add_autotuned_streamer] stores the entry
    under the lower-cased name.  When no settings mapping is passed the
    entry has all three fields, with the manager's default quality and with
    notifications and auto-start on.  A mapping that is passed is stored as
    it is, with no field added.  The store is then written to the file,
    and the call returns false exactly when that write fails; after a
    write that succeeds the file holds the store with the new entry,
    beside the manager's check interval, cap and default quality. *)
Theorem add_autotuned_streamer_stores self username settings w :
  let '(ok, self', f') := add_autotuned_streamer self username settings w in
  autotuned_streamers self'
    = <[lower username := added_policy self settings]> (autotuned_streamers self)
  ∧ added_policy self None !! "quality" = Some (VStr (default_quality self))
  ∧ added_policy self None !! "notifications" = Some (VBool true)
  ∧ added_policy self None !! "auto_start" = Some (VBool true)
  ∧ (∀ s, added_policy self (Some s) = s)
  ∧ (ok = false ↔ w ≠ Written)
  ∧ (w = Written →
     ∃ d, f' = Document d
       ∧ doc_autotuned_streamers d
         = Some (<[lower username := added_policy self settings]>
                   (autotuned_streamers self))
       ∧ doc_check_interval d = Some (check_interval self)
       ∧ doc_max_concurrent_streams d = Some (max_concurrent_streams self)
       ∧ doc_default_quality d = Some (default_quality self)).
Proof.
  rewrite add_autotuned_streamer_eq. cbv zeta.
  split; [reflexivity|].
  destruct (default_policy_fields self) as (Hq & Hn & Ha).
  do 3 (split; [assumption|]). split; [reflexivity|].
  destruct w; simpl; split; try congruence.
  - split; [intros; congruence|]. intros H. exfalso. apply H. reflexivity.
  - intros _. eexists. split; [reflexivity|]. repeat split.
  - split; [intros _; discriminate | reflexivity].
Qed.

(** C4, as stated, fails: adding "Foo" with a mapping that only gives the
    quality leaves the stored entry without [auto_start] and without
    [notifications]. *)
Lemma add_partial_settings_not_filled :
  let '(_, self', _) :=
    add_autotuned_streamer fresh_manager "Foo"
      (Some {[ "quality" := VStr "720p" ]}) Written in
  ∃ stored, autotuned_streamers self' !! "foo" = Some stored
    ∧ stored !! "quality" = Some (VStr "720p")
    ∧ stored !! "auto_start" = None
    ∧ stored !! "notifications" = None.
Proof.
  rewrite add_autotuned_streamer_eq. cbv zeta.
  eexists. split; [apply lookup_insert_eq|].
  repeat split; reflexivity.
Qed.

(** C8.  For a tracked streamer, [update_streamer_settings] merges the
    given settings into the stored ones: every key of the given mapping
    takes the given value, every other stored key keeps its value, and the
    other entries of the store are untouched; the store is then written,
    and the call returns the outcome of the write: after a write that
    succeeds the file holds the store with the merged entry.  For a streamer that is
    not tracked the call returns false and changes neither the manager nor
    the file. *)
Theorem update_streamer_settings_merges
    (self : AutotuneManager) (username : string) (settings : policy)
    (w : write_outcome) (f : file) :
  (∀ stored, autotuned_streamers self !! lower username = Some stored →
     let '(ok, self', f') := update_streamer_settings self username settings w f in
     ∃ merged, autotuned_streamers self' !! lower username = Some merged
       ∧ (∀ k v, settings !! k = Some v → merged !! k = Some v)
       ∧ (∀ k, settings !! k = None → merged !! k = stored !! k)
       ∧ (∀ other, other ≠ lower username →
            autotuned_streamers self' !! other = autotuned_streamers self !! other)
       ∧ (ok = true ↔ w = Written)
       ∧ (w = Written →
          ∃ d, f' = Document d
            ∧ doc_autotuned_streamers d = Some (autotuned_streamers self')
            ∧ ∃ written, autotuned_streamers self' !! lower username
                         = Some written
                ∧ (∀ k v, settings !! k = Some v → written !! k = Some v)
                ∧ (∀ k, settings !! k = None → written !! k = stored !! k)))
  ∧ (autotuned_streamers self !! lower username = None →
     update_streamer_settings self username settings w f = (false, self, f)).
Proof.
  rewrite update_streamer_settings_eq. split.
  - intros stored ->. cbv zeta.
    assert (Hnew : ∀ k v, settings !! k = Some v →
                          update stored settings !! k = Some v)
      by (intros k v Hk; unfold update; by apply lookup_union_Some_l).
    assert (Hold : ∀ k, settings !! k = None →
                        update stored settings !! k = stored !! k)
      by (intros k Hk; unfold update; by apply lookup_union_r).
    exists (update stored settings).
    split; [apply lookup_insert_eq|].
    split; [exact Hnew|]. split; [exact Hold|].
    split; [intros other Hne; simpl; by apply lookup_insert_ne|].
    split; [apply write_file_ok|]. intros ->. simpl.
    eexists. split; [reflexivity|]. split; [reflexivity|].
    exists (update stored settings).
    split; [apply lookup_insert_eq|]. split; [exact Hnew | exact Hold].
  - intros ->. reflexivity.
Qed.

Lemma update_streamer_settings_merges_witness :
  let '(ok, self', _) :=
    update_streamer_settings
      (set_autotuned_streamers
         {[ "foo" := {[ "quality" := VStr "best"; "auto_start" := VBool true ]} ]}
         fresh_manager)
      "Foo" {[ "quality" := VStr "720p" ]} Written Missing in
  ∃ merged, autotuned_streamers self' !! "foo" = Some merged
    ∧ merged !! "quality" = Some (VStr "720p")
    ∧ merged !! "auto_start" = Some (VBool true)
    ∧ ok = true.
Proof.
  pose proof (proj1 (update_streamer_settings_merges
    (set_autotuned_streamers
       {[ "foo" := {[ "quality" := VStr "best"; "auto_start" := VBool true ]} ]}
       fresh_manager)
    "Foo" {[ "quality" := VStr "720p" ]} Written Missing)
    {[ "quality" := VStr "best"; "auto_start" := VBool true ]} eq_refl) as H.
  destruct (update_streamer_settings _ _ _ _ _) as [[ok self'] f'].
  destruct H as (merged & Hm & Hnew & Hold & _ & Hok & _).
  exists merged. split; [exact Hm|].
  split; [apply Hnew; reflexivity|].
  split; [rewrite Hold; reflexivity|].
  apply Hok. reflexivity.
Defined.

(** ** Sequences of calls on the policy store *)

Lemma all_chars_complete c : In c all_chars.
Proof.
  unfold all_chars. rewrite <- (ascii_nat_embedding c).
  apply in_map, in_seq. pose proof (nat_ascii_bounded c). lia.
Qed.

(** The table of all pairs of characters: [Spec.same_char] holds exactly
    of the pairs that [str.lower] makes equal. *)
Lemma same_char_table :
  forallb (λ c, forallb (λ d, Bool.eqb (Spec.same_char c d)
                                (Ascii.eqb (lower_char c) (lower_char d)))
                  all_chars) all_chars = true.
Proof. vm_compute. reflexivity. Qed.

Lemma same_char_spec c d :
  Spec.same_char c d = true ↔ lower_char c = lower_char d.
Proof.
  pose proof same_char_table as H.
  rewrite forallb_forall in H. specialize (H c (all_chars_complete c)).
  rewrite forallb_forall in H. specialize (H d (all_chars_complete d)).
  apply Bool.eqb_prop in H. rewrite H. apply Ascii.eqb_eq.
Qed.

Lemma same_spec a b : Spec.same a b = true ↔ lower a = lower b.
Proof.
  revert b. induction a as [|c a IH]; intros [|d b]; simpl;
    try (split; [discriminate|done]); [done|].
  rewrite andb_true_iff, same_char_spec, IH. split.
  - intros [-> ->]. reflexivity.
  - intros [= -> ->]. done.
Qed.

Lemma lower_case_char c : negb (Spec.upper c) = true ↔ lower_char c = c.
Proof.
  destruct c as [[] [] [] [] [] [] [] []]; vm_compute;
    split; (reflexivity || discriminate).
Qed.

Lemma lower_case_spec k : Spec.lower_case k = true ↔ lower k = k.
Proof.
  induction k as [|c k IH]; simpl; [done|].
  rewrite andb_true_iff, lower_case_char, IH. split.
  - intros [-> ->]. reflexivity.
  - intros [= -> ->]. done.
Qed.

Lemma normalized_lower s :
  normalized s ↔ ∀ k, is_Some (s !! k) → lower k = k.
Proof.
  unfold normalized. split; intros H k Hk; apply lower_case_spec, H, Hk.
Qed.

Lemma perform_default_quality c w st :
  default_quality (perform c w st).2.1 = default_quality st.1.
Proof.
  destruct st as [self f]. unfold perform. destruct c as [u s|u s|u].
  - rewrite add_autotuned_streamer_eq. reflexivity.
  - rewrite update_streamer_settings_eq.
    destruct (autotuned_streamers self !! lower u); reflexivity.
  - rewrite remove_autotuned_streamer_eq.
    destruct (autotuned_streamers self !! lower u); reflexivity.
Qed.

(** The store after one call, whatever the write does. *)
Lemma perform_store c w st :
  autotuned_streamers (perform c w st).2.1
  = match c with
    | Add u s =>
        <[lower u := added_policy st.1 s]> (autotuned_streamers st.1)
    | Update u s =>
        match autotuned_streamers st.1 !! lower u with
        | Some stored =>
            <[lower u := update stored s]> (autotuned_streamers st.1)
        | None => autotuned_streamers st.1
        end
    | Remove u => delete (lower u) (autotuned_streamers st.1)
    end.
Proof.
  destruct st as [self f]. unfold perform. cbn [fst snd].
  destruct c as [u s|u s|u].
  - rewrite add_autotuned_streamer_eq. reflexivity.
  - rewrite update_streamer_settings_eq.
    destruct (autotuned_streamers self !! lower u); reflexivity.
  - rewrite remove_autotuned_streamer_eq.
    destruct (autotuned_streamers self !! lower u) eqn:E; [reflexivity|].
    symmetry. by apply delete_id.
Qed.

Lemma perform_normalized c w st :
  normalized (autotuned_streamers st.1) →
  normalized (autotuned_streamers (perform c w st).2.1).
Proof.
  rewrite !normalized_lower.
  intros Hn k. rewrite perform_store. destruct c as [u s|u s|u].
  - rewrite lookup_insert. case_decide as E; [|apply Hn].
    intros _. subst k. apply lower_idem.
  - destruct (autotuned_streamers st.1 !! lower u); [|apply Hn].
    rewrite lookup_insert. case_decide as E; [|apply Hn].
    intros _. subst k. apply lower_idem.
  - rewrite lookup_delete. case_decide as E; [by intros [? ?]|apply Hn].
Qed.

Lemma perform_agrees c w st m :
  agrees (autotuned_streamers st.1) m →
  agrees (autotuned_streamers (perform c w st).2.1)
    (Spec.apply (default_quality st.1) c m).
Proof.
  intros Ha k. rewrite perform_store. destruct c as [u s|u s|u]; simpl.
  - rewrite lookup_insert. destruct (Spec.same k u) eqn:E.
    + apply same_spec in E. rewrite decide_True by done.
      unfold added_policy, Spec.fill, default_policy. by destruct s.
    + rewrite decide_False; [apply Ha|].
      intros Heq. symmetry in Heq. apply same_spec in Heq. congruence.
  - destruct (Spec.same k u) eqn:E.
    + apply same_spec in E. rewrite <- Ha, E.
      destruct (autotuned_streamers st.1 !! lower u) as [stored|] eqn:Hu.
      * rewrite lookup_insert_eq. reflexivity.
      * rewrite Hu. reflexivity.
    + assert (lower u ≠ lower k) as Hne.
      { intros Heq. symmetry in Heq. apply same_spec in Heq. congruence. }
      destruct (autotuned_streamers st.1 !! lower u);
        [rewrite lookup_insert_ne by done|]; apply Ha.
  - rewrite lookup_delete. destruct (Spec.same k u) eqn:E.
    + apply same_spec in E. by rewrite decide_True.
    + rewrite decide_False; [apply Ha|].
      intros Heq. symmetry in Heq. apply same_spec in Heq. congruence.
Qed.

Lemma perform_all_refines cs : ∀ st m,
  normalized (autotuned_streamers st.1) →
  agrees (autotuned_streamers st.1) m →
  normalized (autotuned_streamers (perform_all cs st).1)
  ∧ agrees (autotuned_streamers (perform_all cs st).1)
      (Spec.apply_all (default_quality st.1) cs.*1 m).
Proof.
  induction cs as [|[c w] rest IH]; intros st m Hn Ha; [split; assumption|].
  pose proof (IH (perform c w st).2 (Spec.apply (default_quality st.1) c m)
                (perform_normalized c w st Hn) (perform_agrees c w st m Ha))
    as IH'.
  rewrite perform_default_quality in IH'. exact IH'.
Qed.

(** C9, as stated, fails for a store that was read from a settings file
    with a key in mixed case: [__init__] takes the keys of the file as
    they are.  With "Ninja" loaded, adding "ninja" tracks the streamer
    twice, and removing "Ninja" finds nothing to remove and leaves the
    loaded entry listed. *)
Lemma loaded_key_tracked_twice :
  let on_disk :=
    {| doc_autotuned_streamers := Some {[ "Ninja" := ∅ ]};
       doc_check_interval := Some 60;
       doc_max_concurrent_streams := Some 4;
       doc_default_quality := Some "best";
       doc_auto_start_on_boot := Some true;
       doc_notification_settings := Some default_notification_settings |} in
  ∃ self, (__init__ false (Document on_disk) Written).1 = Ok self
    ∧ (let listed :=
         get_autotuned_streamers
           (perform_all [(Add "ninja" None, Written)]
              (self, Document on_disk)).1 in
       is_Some (listed !! "Ninja") ∧ is_Some (listed !! "ninja")
       ∧ Spec.same "Ninja" "ninja" = true ∧ "Ninja" ≠ "ninja")
    ∧ (let removed := perform (Remove "Ninja") Written (self, Document on_disk) in
       removed.1 = false
       ∧ is_Some (get_autotuned_streamers removed.2.1 !! "Ninja")).
Proof.
  eexists. split; [reflexivity|]. split.
  - cbv zeta. split; [vm_compute; by eexists|].
    split; [vm_compute; by eexists|]. split; [reflexivity|discriminate].
  - cbv zeta. split; [reflexivity|]. vm_compute. by eexists.
Qed.

(** C9, for a store whose keys have no upper-case letter (the empty store
    is one).  Make any sequence of add, update and remove calls, each with
    any outcome of its write.  Then [get_autotuned_streamers] returns a
    store whose keys again have no upper-case letter and which holds no
    two keys that differ only in case.  It reflects the net effect of the
    sequence on a mapping keyed case-insensitively: the mapping holds an
    entry under a spelling exactly when the store holds that entry under a
    key that differs from the spelling at most in case, and that key is the
    lower-cased spelling. *)
Theorem store_keyed_case_insensitively
    (cs : list (call * write_outcome)) (self : AutotuneManager) (f : file) :
  normalized (autotuned_streamers self) →
  let listed := get_autotuned_streamers (perform_all cs (self, f)).1 in
  let net := Spec.apply_all (default_quality self) cs.*1
               (λ k, autotuned_streamers self !! lower k) in
  normalized listed
  ∧ (∀ k1 k2, is_Some (listed !! k1) → is_Some (listed !! k2) →
       Spec.same k1 k2 = true → k1 = k2)
  ∧ (∀ k, listed !! lower k = net k)
  ∧ (∀ k p, net k = Some p ↔
            ∃ k', Spec.same k k' = true ∧ listed !! k' = Some p)
  ∧ (∀ k, Spec.same k (lower k) = true ∧ Spec.lower_case (lower k) = true).
Proof.
  intros Hn listed net.
  destruct (perform_all_refines cs (self, f)
              (λ k, autotuned_streamers self !! lower k) Hn)
    as [Hn' Ha']; [intros k; reflexivity|].
  pose proof (proj1 (normalized_lower _) Hn' : ∀ k, is_Some (listed !! k) →
                                                    lower k = k) as Hl.
  pose proof (Ha' : ∀ k, listed !! lower k = net k) as Hnet.
  pose proof (Hn' : normalized listed) as Hnl.
  clear Hn' Ha'. clearbody listed net. rename Hnl into Hn'.
  split; [exact Hn'|]. split; [|split; [exact Hnet|split]].
  - intros k1 k2 H1 H2 Heq. apply same_spec in Heq.
    rewrite <- (Hl k1 H1), <- (Hl k2 H2). exact Heq.
  - intros k p. split.
    + intros Hk. exists (lower k). split.
      * apply same_spec. by rewrite lower_idem.
      * by rewrite (Hnet k).
    + intros (k' & Hs & Hk'). apply same_spec in Hs.
      rewrite <- (Hnet k), Hs, (Hl k'); [exact Hk'|by eexists].
  - intros k. split.
    + apply same_spec. by rewrite lower_idem.
    + apply lower_case_spec, lower_idem.
Qed.

Lemma normalized_empty : normalized ∅.
Proof. intros k [v Hv]. rewrite lookup_empty in Hv. discriminate. Qed.

Lemma store_keyed_case_insensitively_witness :
  let listed :=
    get_autotuned_streamers
      (perform_all [(Add "A" None, Written); (Remove "a", Written)]
         (fresh_manager, Missing)).1 in
  listed !! "a" = None ∧ listed !! "A" = None ∧ normalized listed.
Proof.
  pose proof (store_keyed_case_insensitively
                [(Add "A" None, Written); (Remove "a", Written)]
                fresh_manager Missing normalized_empty)
    as (Hn & _ & Hl & Hnet & _).
  split; [exact (Hl "A")|]. split; [|exact Hn].
  destruct (get_autotuned_streamers _ !! "A") as [p|] eqn:E; [|reflexivity].
  assert (Spec.apply_all (default_quality fresh_manager)
            [(Add "A" None, Written); (Remove "a", Written)].*1
            (λ k, autotuned_streamers fresh_manager !! lower k) "A" = Some p)
    as Habs.
  { apply Hnet. exists "A". split; [reflexivity|exact E]. }
  discriminate Habs.
Defined.

(** ** StreamHandler *)

(** C6.  A call of [start_stream] that reports failure returns a reason
    string and leaves the handler, and so the registry of active streams,
    exactly as it was: no session is created.  This covers the empty
    channel name, for which the reason is "Channel name is required", a
    command line that cannot be joined, and a spawn that raises. *)
Theorem start_stream_failure_keeps_registry
    (self : StreamHandler) (channel : string) (quality : value)
    (output_params : gmap string value) (env : launch_env) :
  start_stream self "" quality output_params env
    = ((false, "Channel name is required"), self)
  ∧ ((start_stream self channel quality output_params env).1.1 = false →
     active_streams (start_stream self channel quality output_params env).2
       = active_streams self
     ∧ (start_stream self channel quality output_params env).2 = self)
  ∧ (channel = ""
     ∨ is_Some (join_error 0 (command self channel quality output_params))
     ∨ (∃ message, spawn env = SpawnRaises message) →
     (start_stream self channel quality output_params env).1.1 = false).
Proof.
  split; [reflexivity|]. split.
  - unfold start_stream. case_decide; [done|].
    destruct (join_error _ _); [done|].
    destruct (spawn env); [discriminate|done].
  - unfold start_stream. intros [-> | [[m Hm] | [m Hm]]]; [reflexivity|..].
    + case_decide; [reflexivity|]. by rewrite Hm.
    + case_decide; [reflexivity|].
      destruct (join_error _ _); [reflexivity|]. by rewrite Hm.
Qed.

Lemma start_stream_failure_keeps_registry_witness :
  let self := {| streamlink_path := "streamlink"; active_streams := ∅ |} in
  let env := {| nonce := "00ff00ff"; spawn := SpawnRaises "No such file";
                now := 0 |} in
  (start_stream self "ninja" (VStr "best") ∅ env).1.1 = false
  ∧ (start_stream self "ninja" (VStr "best") ∅ env).2 = self.
Proof.
  intros self env.
  assert ((start_stream self "ninja" (VStr "best") ∅ env).1.1 = false) as Hfail.
  { apply (proj2 (proj2 (start_stream_failure_keeps_registry
                    self "ninja" (VStr "best") ∅ env))).
    right. right. exists "No such file". reflexivity. }
  split; [exact Hfail|].
  apply (proj1 (proj2 (start_stream_failure_keeps_registry
           self "ninja" (VStr "best") ∅ env))). exact Hfail.
Defined.

(** C7.  [stop_stream] on an id that is not in the registry returns false
    and leaves the handler as it was.  [stop_stream] always returns a
    boolean; once a call has returned true the id is no longer in the
    registry, so a second call with the same id returns false and
    changes nothing; and when the id was unknown from the start both
    calls return false. *)
Theorem stop_stream_unknown
    (self : StreamHandler) (stream_id : string) (env env' : stop_env) :
  (active_streams self !! stream_id = None →
     stop_stream self stream_id env = (false, self))
  ∧ ((stop_stream self stream_id env).1 = true →
     active_streams (stop_stream self stream_id env).2 !! stream_id = None
     ∧ stop_stream (stop_stream self stream_id env).2 stream_id env'
       = (false, (stop_stream self stream_id env).2))
  ∧ (active_streams self !! stream_id = None →
     stop_stream (stop_stream self stream_id env).2 stream_id env'
       = (false, self)).
Proof.
  assert (Hunknown : ∀ h e, active_streams h !! stream_id = None →
                            stop_stream h stream_id e = (false, h)).
  { intros h e Hh. unfold stop_stream. by rewrite Hh. }
  split; [apply Hunknown|]. split.
  - intros Hok.
    assert (active_streams (stop_stream self stream_id env).2 !! stream_id = None)
      as Hgone.
    { unfold stop_stream in *.
      destruct (active_streams self !! stream_id); [|discriminate].
      destruct (terminate_raises env); [discriminate|].
      destruct (negb (exits_in_time env) && kill_raises env); [discriminate|].
      simpl. apply lookup_delete_eq. }
    split; [exact Hgone|]. by apply Hunknown.
  - intros Hnone. rewrite (Hunknown self env Hnone). simpl.
    by apply Hunknown.
Qed.

Lemma stop_stream_unknown_witness :
  let entry := {| process := 7; channel := "ninja"; quality := VStr "best";
                  start_time := 0 |} in
  let self := {| streamlink_path := "streamlink";
                 active_streams := {[ "ninja_best_00ff00ff" := entry ]} |} in
  let env := {| terminate_raises := false; exits_in_time := false;
                kill_raises := false; monitor_ran := false |} in
  stop_stream self "shroud_best_0a0b0c0d" env = (false, self)
  ∧ stop_stream (stop_stream self "ninja_best_00ff00ff" env).2
      "ninja_best_00ff00ff" env
    = (false, (stop_stream self "ninja_best_00ff00ff" env).2).
Proof.
  intros entry self env. split.
  - apply (proj1 (stop_stream_unknown self "shroud_best_0a0b0c0d" env env)).
    reflexivity.
  - apply (proj1 (proj2 (stop_stream_unknown self "ninja_best_00ff00ff" env env))).
    reflexivity.
Defined.

(** ** One admission step *)

Section AdmissionFacts.

Variable set_iter : gset string → list string.

Lemma start_autotuned_streams_empty self handler clock env :
  start_autotuned_streams set_iter self handler ∅ clock env
  = {| returned := Ok []; notifications := [];
       manager_after := self; handler_after := handler |}.
Proof. unfold start_autotuned_streams. by rewrite decide_True. Qed.

Lemma start_autotuned_streams_live self handler live clock env :
  live ≠ ∅ →
  manager_after (start_autotuned_streams set_iter self handler live clock env)
  = set_currently_live live self.
Proof.
  intros Hne. unfold start_autotuned_streams. rewrite decide_False by done.
  cbv zeta. destruct (select _ _ _) as [to_start notified].
  destruct (start_all _ _ _ _ _ _). reflexivity.
Qed.

(** [slice_to] keeps a prefix. *)
Lemma slice_to_prefix {A} k (l : list A) : ∃ n, slice_to k l = take n l.
Proof. unfold slice_to. destruct (k <? 0); eauto. Qed.

Lemma limit_prefix self active l : ∃ n, limit self active l = take n l.
Proof.
  unfold limit. destruct (_ >? _); [apply slice_to_prefix|].
  exists (length l). by rewrite firstn_all.
Qed.

Lemma limit_length self active l :
  Z.of_nat active ≤ max_concurrent_streams self →
  Z.of_nat active + Z.of_nat (length (limit self active l))
    ≤ max_concurrent_streams self.
Proof.
  intros Hle. unfold limit. destruct (_ >? _) eqn:E.
  - unfold slice_to. destruct (_ <? 0) eqn:Eneg; [lia|].
    rewrite length_take. lia.
  - lia.
Qed.




Lemma start_all_tracked self env l : ∀ i handler started,
  (∀ u, u ∈ l → is_Some (autotuned_streamers self !! u)) →
  ∃ ids, (start_all self env i l handler started).1 = Ok ids.
Proof.
  induction l as [|u rest IH]; intros i handler started Hall; simpl; [eauto|].
  destruct (Hall u) as [g Hg]; [left|]. rewrite Hg.
  destruct (start_stream handler u _ ∅ (env i)) as [[ok id] handler'].
  apply IH. intros v Hv. apply Hall. by right.
Qed.

Lemma select_candidates self active_channels l u :
  u ∈ (select self active_channels l).1 →
  u ∈ l ∧ lower u ∉ active_channels.
Proof.
  induction l as [|v rest IH]; simpl; [by intros ?%elem_of_nil|].
  destruct (select self active_channels rest) as [ts ns]. simpl in IH.
  case_decide as Hact.
  { intros Hu. destruct (IH Hu). split; [by right|done]. }
  destruct (truthy _); simpl.
  - intros [->|Hu]%elem_of_cons; [split; [left|done]|].
    destruct (IH Hu). split; [by right|done].
  - intros Hu. destruct (IH Hu). split; [by right|done].
Qed.

Lemma get_active_streams_size handler clock :
  size (get_active_streams handler clock) = size (active_streams handler).
Proof. unfold get_active_streams. apply map_size_fmap. Qed.


End AdmissionFacts.

(** C1 fails on an empty live set: with "ninja" recorded as live by the
    previous tick, a tick whose live set is empty returns at once and
    leaves the recorded set at {"ninja"}, not at the empty set. *)
Theorem empty_live_set_not_recorded :
  let self := set_currently_live {[ "ninja" ]} fresh_manager in
  let after := start_autotuned_streams elements self idle_handler ∅ 0 all_spawn in
  returned after = Ok []
  ∧ _currently_live (manager_after after) = {[ "ninja" ]}
  ∧ _currently_live (manager_after after) ≠ ∅.
Proof.
  intros self after. unfold after.
  rewrite start_autotuned_streams_empty. simpl.
  split; [reflexivity|]. split; [reflexivity|].
  intros H. assert ("ninja" ∈ (∅ : gset string)) as Hin
    by (rewrite <- H; by apply elem_of_singleton).
  by apply not_elem_of_empty in Hin.
Qed.




(** C5.  If every newly live name that is not already running is a key of
    the store, the quality lookup of [start_autotuned_streams] finds every
    candidate that passed the cap and the call returns normally.  Without that, the
    call can raise: with "zed" tracked and "ghost" not, and both newly
    live, "ghost" passes the auto-start test, both pass the cap, the
    lookup of "ghost" raises [KeyError], and "zed", which comes after it,
    is not started. *)
Theorem quality_lookup_needs_tracked_names :
  (∀ (set_iter : gset string → list string) self handler live clock env,
     (∀ X x, x ∈ set_iter X → x ∈ X) →
     (∀ u, u ∈ live ∖ _currently_live self →
           lower u ∉ active_channels_of (get_active_streams handler clock) →
           is_Some (autotuned_streamers self !! u)) →
     ∃ ids, returned (start_autotuned_streams set_iter self handler live
                        clock env) = Ok ids)
  ∧ (let self := set_autotuned_streamers {[ "zed" := ∅ ]} fresh_manager in
     let live : gset string := {[ "ghost"; "zed" ]} in
     let after :=
       start_autotuned_streams elements self idle_handler live 0 all_spawn in
     autotuned_streamers self !! "ghost" = None
     ∧ limit self 0
         (select self ∅ (elements (live ∖ _currently_live self))).1
       = ["ghost"; "zed"]
     ∧ returned after = Raise (KeyError "ghost")
     ∧ handler_after after = idle_handler).
Proof.
  split.
  - intros set_iter self handler live clock env Hiter Hpre.
    unfold start_autotuned_streams. case_decide; [by eexists|].
    cbv zeta.
    destruct (select (set_currently_live live self)
                (active_channels_of (get_active_streams handler clock))
                (set_iter (live ∖ _currently_live self)))
      as [to_start notified] eqn:Esel.
    destruct (limit_prefix (set_currently_live live self)
                (size (get_active_streams handler clock)) to_start) as [n Hn].
    destruct (start_all_tracked (set_currently_live live self) env
                (limit (set_currently_live live self)
                   (size (get_active_streams handler clock)) to_start)
                0 handler []) as [ids Hids].
    { intros u Hu. rewrite Hn in Hu.
      apply elem_of_take in Hu as (i & Hu & _).
      apply list_elem_of_lookup_2 in Hu.
      change to_start with (to_start, notified).1 in Hu. rewrite <- Esel in Hu.
      apply select_candidates in Hu as [Hin Hact].
      simpl. apply Hpre; [by apply Hiter|done]. }
    destruct (start_all _ _ _ _ _ _) as [r handler']. simpl in *.
    by exists ids.
  - vm_compute. repeat split; reflexivity.
Qed.

Lemma quality_lookup_needs_tracked_names_witness :
  let self := set_autotuned_streamers {[ "zed" := ∅ ]} fresh_manager in
  ∃ ids, returned (start_autotuned_streams elements self idle_handler
                     {[ "zed" ]} 0 all_spawn) = Ok ids.
Proof.
  intros self.
  apply (proj1 quality_lookup_needs_tracked_names elements self idle_handler
           {[ "zed" ]} 0 all_spawn).
  - intros X x Hx. by apply elem_of_elements.
  - intros u Hu _. apply elem_of_difference in Hu as [Hu _].
    apply elem_of_singleton in Hu. subst u. by eexists.
Defined.

(** ** The loop task *)

Lemma stop_idempotent r : stop (stop r) = stop r.
Proof.
  unfold stop at 2 3. destruct (_running (manager r)) eqn:E; simpl.
  - destruct (_check_task (manager r)); reflexivity.
  - unfold stop. by rewrite E.
Qed.

Lemma stop_not_running r : _running (manager (stop r)) = false.
Proof.
  unfold stop. destruct (_running (manager r)) eqn:E; simpl; [|done].
  destruct (_check_task (manager r)); reflexivity.
Qed.

Lemma stop_marks_task r handle t p :
  _running (manager r) = true →
  _check_task (manager r) = Some handle →
  tasks r !! handle = Some t →
  state t = Suspended p false →
  tasks (stop r) !! handle
  = Some {| state := Suspended p true; ticks_completed := ticks_completed t |}.
Proof.
  intros Hr Hc Ht Hs. unfold stop. rewrite Hr, Hc. simpl.
  rewrite lookup_alter_eq, Ht. simpl. unfold cancel. by rewrite Hs.
Qed.

Lemma resume_marked handle waits r p done :
  tasks r !! handle
    = Some {| state := Suspended p true; ticks_completed := done |} →
  tasks (resume handle waits r) !! handle
  = Some {| state := Cancelled; ticks_completed := done |}.
Proof. intros Ht. unfold resume. simpl. rewrite lookup_alter_eq, Ht. reflexivity. Qed.

Lemma run_cancelled handle n : ∀ waits r done,
  tasks r !! handle = Some {| state := Cancelled; ticks_completed := done |} →
  tasks (run handle waits n r) !! handle
  = Some {| state := Cancelled; ticks_completed := done |}.
Proof.
  induction n as [|n IH]; intros waits r done Ht; [exact Ht|].
  simpl. apply IH. unfold resume. simpl.
  rewrite lookup_alter_eq, Ht. reflexivity.
Qed.

(** After [stop], the first resumption of the loop task ends it. *)
Lemma run_after_stop r handle t p n waits :
  _running (manager r) = true →
  _check_task (manager r) = Some handle →
  tasks r !! handle = Some t →
  state t = Suspended p false →
  tasks (run handle waits n (stop r)) !! handle
  = Some {| state := match n with O => Suspended p true | S _ => Cancelled end;
            ticks_completed := ticks_completed t |}.
Proof.
  intros Hr Hc Ht Hs.
  pose proof (stop_marks_task r handle t p Hr Hc Ht Hs) as Hm.
  destruct n as [|n]; [exact Hm|].
  simpl. apply run_cancelled. by eapply resume_marked.
Qed.

(** C3, as stated, fails.  Left alone, the tick that is in flight in
    [mid_tick] returns after three resumptions.  Once [stop] has been
    called it never does: the task is cancelled at the wait where it is
    suspended. *)
Lemma stop_interrupts_tick_in_flight :
  (∃ t', tasks (run 0 (λ _, 3%nat) 3 mid_tick) !! 0%nat = Some t'
         ∧ ticks_completed t' = 1%nat)
  ∧ ¬ tick_completes_after_stop mid_tick 0.
Proof.
  split; [eexists; split; reflexivity|].
  intros (n & waits & t & t' & Ht & Ht' & Hlt).
  rewrite (run_after_stop mid_tick 0 _ (InTick 2) n waits
             eq_refl eq_refl Ht) in Ht'.
  - injection Ht' as <-. simpl in Hlt. lia.
  - vm_compute in Ht. injection Ht as <-. reflexivity.
Qed.

(** C3, as the code has it.  [stop] is idempotent and leaves the manager
    not running.  Called while the manager runs and its loop task is
    suspended, at a wait inside a tick or in the sleep between ticks, it
    marks the task for cancellation: the next resumption ends the task as
    cancelled at that wait, the tick in flight does not return, and no
    further tick is run. *)
Theorem stop_cancels_loop_task
    (r : runtime) (handle : nat) (t : task) (p : await_point) :
  stop (stop r) = stop r
  ∧ _running (manager (stop r)) = false
  ∧ (_running (manager r) = true →
     _check_task (manager r) = Some handle →
     tasks r !! handle = Some t →
     state t = Suspended p false →
     ∀ n waits,
       tasks (run handle waits (S n) (stop r)) !! handle
       = Some {| state := Cancelled; ticks_completed := ticks_completed t |}).
Proof.
  split; [apply stop_idempotent|]. split; [apply stop_not_running|].
  intros Hr Hc Ht Hs n waits.
  exact (run_after_stop r handle t p (S n) waits Hr Hc Ht Hs).
Qed.

Lemma stop_cancels_loop_task_witness :
  tasks (run 0 (λ _, 3%nat) 3 (stop mid_tick)) !! 0%nat
  = Some {| state := Cancelled; ticks_completed := 0 |}.
Proof.
  exact (proj2 (proj2 (stop_cancels_loop_task mid_tick 0
           {| state := Suspended (InTick 2) false; ticks_completed := 0 |}
           (InTick 2)))
         eq_refl eq_refl eq_refl eq_refl 2%nat (λ _, 3%nat)).
Defined.

(** * Further properties *)

(** ** The policy store: removal, composition, reloading *)

(** X1.  For a tracked streamer, [remove_autotuned_streamer] deletes the
    entry under the lower-cased name and keeps every other entry; the
    store is then written and the call returns the outcome of the write:
    after a write that succeeds the file holds the store without the
    entry.
    For a streamer that is not tracked it returns false, writes nothing
    and leaves the manager as it was. *)
Theorem remove_autotuned_streamer_deletes
    (self : AutotuneManager) (username : string) (w : write_outcome)
    (f : file) :
  (∀ stored, autotuned_streamers self !! lower username = Some stored →
     let '(ok, self', f') := remove_autotuned_streamer self username w f in
     autotuned_streamers self' !! lower username = None
     ∧ (∀ other, other ≠ lower username →
          autotuned_streamers self' !! other = autotuned_streamers self !! other)
     ∧ (ok = true ↔ w = Written)
     ∧ (w = Written →
        ∃ d, f' = Document d
          ∧ doc_autotuned_streamers d
            = Some (delete (lower username) (autotuned_streamers self))
          ∧ doc_autotuned_streamers d = Some (autotuned_streamers self')))
  ∧ (autotuned_streamers self !! lower username = None →
     remove_autotuned_streamer self username w f = (false, self, f)).
Proof.
  rewrite remove_autotuned_streamer_eq. split.
  - intros stored ->. cbv zeta.
    split; [apply lookup_delete_eq|].
    split; [intros other Hne; simpl; by apply lookup_delete_ne|].
    split; [apply write_file_ok|]. intros ->. simpl.
    eexists. split; [reflexivity|]. split; reflexivity.
  - intros ->. reflexivity.
Qed.

Lemma remove_autotuned_streamer_deletes_witness :
  let self :=
    set_autotuned_streamers {[ "foo" := ∅; "bar" := ∅ ]} fresh_manager in
  let '(ok, self', _) := remove_autotuned_streamer self "FOO" Written Missing in
  autotuned_streamers self' !! "foo" = None
  ∧ autotuned_streamers self' !! "bar" = Some ∅
  ∧ ok = true.
Proof.
  intros self.
  pose proof (proj1 (remove_autotuned_streamer_deletes self "FOO" Written
                       Missing) ∅ eq_refl) as H.
  destruct (remove_autotuned_streamer self "FOO" Written Missing)
    as [[ok self'] f'].
  destruct H as (Hgone & Hother & Hok & _).
  split; [exact Hgone|]. split; [|by apply Hok].
  rewrite Hother; [reflexivity|discriminate].
Defined.

Lemma set_autotuned_streamers_same self :
  set_autotuned_streamers (autotuned_streamers self) self = self.
Proof. by destruct self. Qed.

(** X2.  Adding a streamer that is not yet tracked and then removing it,
    under any spelling of the name that differs only in case, gives back
    the manager as it was before the two calls, whatever the writes do. *)
Theorem add_then_remove_restores
    (self : AutotuneManager) (added removed : string)
    (settings : option policy) (w1 w2 : write_outcome) :
  lower added = lower removed →
  autotuned_streamers self !! lower added = None →
  let '(_, self1, f1) := add_autotuned_streamer self added settings w1 in
  let '(ok, self2, _) := remove_autotuned_streamer self1 removed w2 f1 in
  self2 = self ∧ (ok = true ↔ w2 = Written).
Proof.
  intros Hsame Hnew.
  rewrite add_autotuned_streamer_eq. cbv beta iota zeta.
  rewrite remove_autotuned_streamer_eq, <- Hsame. simpl.
  rewrite lookup_insert_eq. simpl.
  rewrite delete_insert_eq, delete_id by exact Hnew.
  split; [|apply write_file_ok].
  rewrite <- (set_autotuned_streamers_same self) at 3.
  by destruct self.
Qed.

Lemma add_then_remove_restores_witness :
  let '(_, self1, f1) :=
    add_autotuned_streamer fresh_manager "Ninja" None Written in
  let '(ok, self2, _) :=
    remove_autotuned_streamer self1 "NINJA" (WriteFails Missing) f1 in
  self2 = fresh_manager ∧ (ok = true ↔ WriteFails Missing = Written).
Proof.
  exact (add_then_remove_restores fresh_manager "Ninja" "NINJA" None
           Written (WriteFails Missing) eq_refl eq_refl).
Defined.

Lemma update_streamer_settings_store self username settings w f :
  autotuned_streamers (update_streamer_settings self username settings w f).1.2
  = match autotuned_streamers self !! lower username with
    | Some stored =>
        <[lower username := update stored settings]> (autotuned_streamers self)
    | None => autotuned_streamers self
    end.
Proof.
  rewrite update_streamer_settings_eq.
  destruct (autotuned_streamers self !! lower username); reflexivity.
Qed.

(** X3.  Two updates of the same streamer in a row leave the store as one
    update with the two mappings merged does, the later mapping winning on
    the keys both give; an update with the empty mapping leaves the store
    as it is.  This holds for tracked and untracked names and whatever the
    writes do. *)
Theorem update_streamer_settings_compose
    (self : AutotuneManager) (username : string) (first second : policy)
    (w1 w2 w : write_outcome) (f : file) :
  let '(_, self1, f1) := update_streamer_settings self username first w1 f in
  autotuned_streamers
    (update_streamer_settings self1 username second w2 f1).1.2
  = autotuned_streamers
      (update_streamer_settings self username (second ∪ first) w f).1.2
  ∧ autotuned_streamers (update_streamer_settings self username ∅ w f).1.2
    = autotuned_streamers self.
Proof.
  pose proof (update_streamer_settings_store self username first w1 f) as H1.
  destruct (update_streamer_settings self username first w1 f)
    as [[ok1 self1] f1]. simpl in H1.
  rewrite !update_streamer_settings_store, H1.
  destruct (autotuned_streamers self !! lower username) as [stored|] eqn:E.
  - rewrite lookup_insert_eq, insert_insert_eq. unfold update.
    rewrite (left_id_L ∅ (∪) stored), (assoc_L (∪)).
    split; [reflexivity|]. by apply insert_id.
  - rewrite E. split; reflexivity.
Qed.

(** X4.  After an add, update or remove call that returns true, a manager
    constructed from the settings file starts with the very store the
    first manager has in memory, and with its check interval, cap and
    default quality. *)
Theorem store_survives_reload
    (c : call) (self : AutotuneManager) (f : file) (w w' : write_outcome)
    (callback : bool) :
  (perform c w (self, f)).1 = true →
  let '(self', f') := (perform c w (self, f)).2 in
  ∃ reloaded, (__init__ callback f' w').1 = Ok reloaded
    ∧ autotuned_streamers reloaded = autotuned_streamers self'
    ∧ check_interval reloaded = check_interval self'
    ∧ max_concurrent_streams reloaded = max_concurrent_streams self'
    ∧ default_quality reloaded = default_quality self'.
Proof.
  unfold perform. destruct c as [u s|u s|u].
  - rewrite add_autotuned_streamer_eq. cbv zeta.
    destruct w; simpl; [|discriminate]. intros _.
    eexists. repeat split.
  - rewrite update_streamer_settings_eq.
    destruct (autotuned_streamers self !! lower u); [|discriminate].
    cbv zeta. destruct w; simpl; [|discriminate]. intros _.
    eexists. repeat split.
  - rewrite remove_autotuned_streamer_eq.
    destruct (autotuned_streamers self !! lower u); [|discriminate].
    cbv zeta. destruct w; simpl; [|discriminate]. intros _.
    eexists. repeat split.
Qed.

Lemma store_survives_reload_witness :
  let '(self', f') :=
    (perform (Add "Ninja" (Some {[ "quality" := VStr "720p" ]})) Written
       (fresh_manager, Missing)).2 in
  ∃ reloaded, (__init__ false f' Written).1 = Ok reloaded
    ∧ autotuned_streamers reloaded = autotuned_streamers self'
    ∧ check_interval reloaded = check_interval self'
    ∧ max_concurrent_streams reloaded = max_concurrent_streams self'
    ∧ default_quality reloaded = default_quality self'.
Proof.
  exact (store_survives_reload
           (Add "Ninja" (Some {[ "quality" := VStr "720p" ]}))
           fresh_manager Missing Written Written false eq_refl).
Defined.

(** ** StreamHandler: starting, stopping, monitoring, closing *)

Lemma start_stream_cases self name q params env :
  start_stream self name q params env
  = if decide (name = "") then ((false, "Channel name is required"), self)
    else match join_error 0 (command self name q params) with
         | Some message => ((false, message), self)
         | None =>
             match spawn env with
             | SpawnRaises message => ((false, message), self)
             | Spawned proc =>
                 ((true, stream_id_of name q env),
                  set_active_streams
                    (<[stream_id_of name q env :=
                         {| process := proc; channel := name;
                            quality := q; start_time := now env |}]>
                       (active_streams self)) self)
             end
         end.
Proof. reflexivity. Qed.

(** X5.  [start_stream] reports success exactly when the channel name is
    not empty, the command line can be joined and the spawn succeeds.  It
    then returns the id made of channel, quality and the random suffix,
    registers under that id a session with the given channel and quality
    and the current clock reading, and leaves every other id of the
    registry as it was. *)
Theorem start_stream_success
    (self : StreamHandler) (name : string) (q : value)
    (output_params : gmap string value) (env : launch_env) :
  let r := start_stream self name q output_params env in
  (r.1.1 = true ↔
     name ≠ ""
     ∧ join_error 0 (command self name q output_params) = None
     ∧ ∃ proc, spawn env = Spawned proc)
  ∧ (r.1.1 = true →
     r.1.2 = stream_id_of name q env
     ∧ (∃ entry, active_streams r.2 !! r.1.2 = Some entry
          ∧ channel entry = name ∧ quality entry = q
          ∧ start_time entry = now env)
     ∧ ∀ other, other ≠ r.1.2 →
         active_streams r.2 !! other = active_streams self !! other).
Proof.
  cbv zeta. rewrite start_stream_cases.
  case_decide as Hname; simpl.
  { split; [|discriminate]. split; [discriminate|]. intros [? _]. done. }
  destruct (join_error _ _) as [message|]; simpl.
  { split; [|discriminate]. split; [discriminate|]. intros (_ & ? & _). done. }
  destruct (spawn env) as [proc|message]; simpl.
  - split; [split; [intros _; eauto|reflexivity]|].
    intros _. split; [reflexivity|]. split.
    + eexists. split; [apply lookup_insert_eq|]. repeat split.
    + intros other Hne. by apply lookup_insert_ne.
  - split; [|discriminate]. split; [discriminate|].
    intros (_ & _ & proc & ?). done.
Qed.

Lemma start_stream_success_witness :
  let env := {| nonce := "00ff00ff"; spawn := Spawned 7; now := 12 |} in
  let r := start_stream idle_handler "ninja" (VStr "best") ∅ env in
  r.1.2 = "ninja_best_00ff00ff"
  ∧ ∃ entry, active_streams r.2 !! r.1.2 = Some entry
      ∧ channel entry = "ninja" ∧ quality entry = VStr "best"
      ∧ start_time entry = 12.
Proof.
  intros env r.
  assert (r.1.1 = true) as Hok by (vm_compute; reflexivity).
  destruct (proj2 (start_stream_success idle_handler "ninja" (VStr "best") ∅
                     env) Hok) as (Hid & Hentry & _).
  split; [exact Hid | exact Hentry].
Defined.

Lemma stop_stream_cases self stream_id env :
  stop_stream self stream_id env
  = match active_streams self !! stream_id with
    | None => (false, self)
    | Some _ =>
        if terminate_raises env then (false, self)
        else if negb (exits_in_time env) && kill_raises env
        then (false,
              if monitor_ran env
              then set_active_streams (delete stream_id (active_streams self)) self
              else self)
        else (true,
              set_active_streams (delete stream_id (active_streams self)) self)
    end.
Proof.
  unfold stop_stream. destruct (active_streams self !! stream_id); [|done].
  destruct (terminate_raises env); [done|].
  destruct (monitor_ran env), (negb (exits_in_time env) && kill_raises env);
    try reflexivity.
  simpl. by rewrite delete_delete_eq.
Qed.

Lemma stop_stream_other self stream_id env other :
  other ≠ stream_id →
  active_streams (stop_stream self stream_id env).2 !! other
  = active_streams self !! other.
Proof.
  intros Hne. rewrite stop_stream_cases.
  destruct (active_streams self !! stream_id); [|done].
  destruct (terminate_raises env); [done|].
  destruct (negb (exits_in_time env) && kill_raises env); simpl.
  - destruct (monitor_ran env); [|done]. simpl. by apply lookup_delete_ne.
  - by apply lookup_delete_ne.
Qed.

Lemma stop_stream_subseteq self stream_id env :
  active_streams (stop_stream self stream_id env).2 ⊆ active_streams self.
Proof.
  rewrite stop_stream_cases.
  destruct (active_streams self !! stream_id); [|done].
  destruct (terminate_raises env); [done|].
  destruct (negb (exits_in_time env) && kill_raises env); simpl.
  - destruct (monitor_ran env); [apply delete_subseteq|done].
  - apply delete_subseteq.
Qed.

Lemma stop_stream_true_iff self stream_id env :
  (stop_stream self stream_id env).1 = true
  ↔ is_Some (active_streams self !! stream_id) ∧ stop_raises env = false.
Proof.
  rewrite stop_stream_cases. unfold stop_raises.
  destruct (active_streams self !! stream_id) as [s|].
  2:{ simpl. split; [discriminate|]. by intros [[? ?] _]. }
  destruct (terminate_raises env); simpl.
  { split; [discriminate|]. by intros [_ ?]. }
  destruct (negb (exits_in_time env) && kill_raises env); simpl.
  - split; [discriminate|]. by intros [_ ?].
  - split; [eauto|done].
Qed.

(** X6.  [stop_stream] never touches a session other than the one it is
    given and never adds one; and it returns true exactly when the id is
    registered and neither [terminate] nor [kill] raises. *)
Theorem stop_stream_frame
    (self : StreamHandler) (stream_id : string) (env : stop_env) :
  (∀ other, other ≠ stream_id →
     active_streams (stop_stream self stream_id env).2 !! other
     = active_streams self !! other)
  ∧ active_streams (stop_stream self stream_id env).2 ⊆ active_streams self
  ∧ ((stop_stream self stream_id env).1 = true ↔
       is_Some (active_streams self !! stream_id) ∧ stop_raises env = false).
Proof.
  split; [intros other Hne; by apply stop_stream_other|].
  split; [apply stop_stream_subseteq | apply stop_stream_true_iff].
Qed.

Lemma stop_stream_frame_witness :
  (stop_stream five_sessions "p_best_00000001" clean_stop).1 = true
  ∧ active_streams (stop_stream five_sessions "p_best_00000001" clean_stop).2
      !! "q_best_00000002"
    = Some (manual_session "q").
Proof.
  destruct (stop_stream_frame five_sessions "p_best_00000001" clean_stop)
    as (Hother & _ & Hok).
  split.
  - apply Hok. split; [by eexists|reflexivity].
  - rewrite Hother; [reflexivity|discriminate].
Defined.

Lemma set_active_streams_same self :
  set_active_streams (active_streams self) self = self.
Proof. by destruct self. Qed.

(** X7.  Starting a stream whose id is not yet registered and then
    stopping it under the returned id, with neither [terminate] nor [kill]
    raising, returns true and gives back the handler as it was before the
    start. *)
Theorem start_then_stop_restores
    (self : StreamHandler) (name : string) (q : value)
    (output_params : gmap string value) (env : launch_env)
    (senv : stop_env) :
  let r := start_stream self name q output_params env in
  r.1.1 = true →
  active_streams self !! stream_id_of name q env = None →
  stop_raises senv = false →
  stop_stream r.2 r.1.2 senv = (true, self).
Proof.
  cbv zeta. rewrite start_stream_cases.
  case_decide; [discriminate|].
  destruct (join_error _ _); [discriminate|].
  destruct (spawn env); [|discriminate]. simpl.
  intros _ Hfresh Hclean. rewrite stop_stream_cases. simpl.
  rewrite lookup_insert_eq. unfold stop_raises in Hclean.
  apply orb_false_iff in Hclean as [-> ->].
  rewrite delete_insert_eq, delete_id by exact Hfresh.
  f_equal. rewrite <- (set_active_streams_same self) at 2. by destruct self.
Qed.

Lemma start_then_stop_restores_witness :
  let env := {| nonce := "00ff00ff"; spawn := Spawned 7; now := 12 |} in
  let r := start_stream five_sessions "ninja" (VStr "best") ∅ env in
  stop_stream r.2 r.1.2 clean_stop = (true, five_sessions).
Proof.
  intros env.
  apply (start_then_stop_restores five_sessions "ninja" (VStr "best") ∅ env
           clean_stop); vm_compute; reflexivity.
Defined.

Lemma stop_stream_true_gone self stream_id env :
  (stop_stream self stream_id env).1 = true →
  active_streams (stop_stream self stream_id env).2 !! stream_id = None.
Proof.
  rewrite stop_stream_cases.
  destruct (active_streams self !! stream_id); [|discriminate].
  destruct (terminate_raises env); [discriminate|].
  destruct (negb (exits_in_time env) && kill_raises env); [discriminate|].
  intros _. apply lookup_delete_eq.
Qed.

Lemma _monitor_stream_loggable at_start stream_id env at_exit :
  loggable env →
  _monitor_stream at_start stream_id env at_exit
  = match active_streams at_start !! stream_id with
    | None => (Ok (), at_exit)
    | Some _ => (Ok (), _monitor_stream_cleanup at_exit stream_id)
    end.
Proof.
  intros [Hout Herr]. unfold _monitor_stream.
  destruct (active_streams at_start !! stream_id); [|done].
  by destruct (stdout env), (stderr env).
Qed.

(** X8.  The exit monitor never touches a session other than the one it
    watches, and it changes nothing when that session is already gone at
    the time the process ends, in particular after a [stop_stream] that
    returned true (double removal is safe).  When the output of the
    process can be logged (it is empty or decodes as UTF-8), the monitor
    returns normally and has removed the session, and a later
    [stop_stream] for that id returns false and changes nothing.  When
    the output does not decode, the monitor raises [UnicodeDecodeError]
    before the cleanup and the session of the ended process stays in the
    registry. *)
Theorem monitor_stream_removes_once
    (at_start at_exit : StreamHandler) (stream_id : string)
    (menv : monitor_env) (env env' : stop_env) :
  let after := _monitor_stream at_start stream_id menv at_exit in
  (∀ other, other ≠ stream_id →
     active_streams after.2 !! other = active_streams at_exit !! other)
  ∧ (active_streams at_exit !! stream_id = None → after.2 = at_exit)
  ∧ ((stop_stream at_start stream_id env).1 = true →
     (_monitor_stream at_start stream_id menv
        (stop_stream at_start stream_id env).2).2
     = (stop_stream at_start stream_id env).2)
  ∧ (loggable menv →
     after.1 = Ok ()
     ∧ (is_Some (active_streams at_start !! stream_id) →
        active_streams after.2 !! stream_id = None
        ∧ stop_stream after.2 stream_id env' = (false, after.2)))
  ∧ (¬ loggable menv →
     is_Some (active_streams at_start !! stream_id) →
     after.1 = Raise (OtherError "UnicodeDecodeError")
     ∧ after.2 = at_exit).
Proof.
  cbv zeta.
  assert (Hshape : ∀ h,
    (_monitor_stream at_start stream_id menv h).2 = h
    ∨ (_monitor_stream at_start stream_id menv h).2
      = _monitor_stream_cleanup h stream_id).
  { intros h. unfold _monitor_stream.
    destruct (active_streams at_start !! stream_id); [|by left].
    destruct (stdout menv); [| |by left];
      (destruct (stderr menv); [by right|by right|by left]). }
  assert (Hclean_gone : ∀ h, active_streams h !! stream_id = None →
                             _monitor_stream_cleanup h stream_id = h).
  { intros h Hnone. unfold _monitor_stream_cleanup. by rewrite Hnone. }
  assert (Hgone : ∀ h, active_streams h !! stream_id = None →
                       (_monitor_stream at_start stream_id menv h).2 = h).
  { intros h Hnone. destruct (Hshape h) as [->| ->]; [done|].
    by apply Hclean_gone. }
  split; [|split; [apply Hgone|split; [|split]]].
  - intros other Hne. destruct (Hshape at_exit) as [->| ->]; [done|].
    unfold _monitor_stream_cleanup.
    destruct (active_streams at_exit !! stream_id); [|done].
    by apply lookup_delete_ne.
  - intros Hok. apply Hgone. by apply stop_stream_true_gone.
  - intros Hlog. rewrite _monitor_stream_loggable by exact Hlog.
    split; [by destruct (active_streams at_start !! stream_id)|].
    intros [s Hs]. rewrite Hs. simpl.
    assert (active_streams (_monitor_stream_cleanup at_exit stream_id)
              !! stream_id = None) as Hnone.
    { unfold _monitor_stream_cleanup.
      destruct (active_streams at_exit !! stream_id) eqn:E; [|exact E].
      apply lookup_delete_eq. }
    split; [exact Hnone|]. rewrite stop_stream_cases, Hnone. reflexivity.
  - intros Hlog [s Hs]. unfold _monitor_stream. rewrite Hs.
    unfold loggable in Hlog.
    destruct (stdout menv); [| |done];
      (destruct (stderr menv); [| |done]); exfalso; apply Hlog; done.
Qed.

Lemma monitor_stream_removes_once_witness :
  let env := {| nonce := "00ff00ff"; spawn := Spawned 7; now := 12 |} in
  let started := (start_stream idle_handler "ninja" (VStr "best") ∅ env).2 in
  let quiet := {| stdout := NoOutput; stderr := Decodable |} in
  let garbled := {| stdout := Decodable; stderr := Undecodable |} in
  (_monitor_stream started "ninja_best_00ff00ff" quiet started).1 = Ok ()
  ∧ (_monitor_stream started "ninja_best_00ff00ff" garbled started).2
    = started
  ∧ (_monitor_stream started "ninja_best_00ff00ff" quiet
       (stop_stream started "ninja_best_00ff00ff" clean_stop).2).2
    = (stop_stream started "ninja_best_00ff00ff" clean_stop).2.
Proof.
  intros env started quiet garbled.
  pose proof (monitor_stream_removes_once started started
                "ninja_best_00ff00ff" quiet clean_stop clean_stop)
    as (_ & _ & Hstop & Hlog & _).
  pose proof (monitor_stream_removes_once started started
                "ninja_best_00ff00ff" garbled clean_stop clean_stop)
    as (_ & _ & _ & _ & Hbad).
  split; [|split].
  - apply Hlog. split; discriminate.
  - apply Hbad; [|vm_compute; by eexists].
    intros [_ Herr]. by apply Herr.
  - apply Hstop. vm_compute. reflexivity.
Defined.

Section CloseFacts.

Variable dict_keys : gmap string session → list string.

Lemma stop_each_subseteq env ids : ∀ self,
  active_streams (stop_each self env ids) ⊆ active_streams self.
Proof.
  induction ids as [|id rest IH]; intros self; simpl; [done|].
  etrans; [apply IH|]. apply stop_stream_subseteq.
Qed.

Lemma stop_each_survivor env ids : ∀ self id s,
  id ∈ ids →
  active_streams (stop_each self env ids) !! id = Some s →
  stop_raises (env id) = true.
Proof.
  induction ids as [|k rest IH]; intros self id s Hin Hs; simpl in *.
  { by apply elem_of_nil in Hin. }
  destruct (decide (id = k)) as [->|Hne].
  - destruct (stop_raises (env k)) eqn:Hr; [done|exfalso].
    pose proof (stop_each_subseteq env rest
                  (stop_stream self k (env k)).2) as Hsub.
    pose proof (lookup_weaken _ _ _ _ Hs Hsub) as Hk.
    assert ((stop_stream self k (env k)).1 = true) as Hok.
    { apply stop_stream_true_iff. split; [|exact Hr].
      eexists. exact (lookup_weaken _ _ _ _ Hk (stop_stream_subseteq _ _ _)). }
    rewrite (stop_stream_true_gone _ _ _ Hok) in Hk. discriminate.
  - apply elem_of_cons in Hin as [?|Hin]; [done|].
    by eapply IH.
Qed.

End CloseFacts.

(** X9.  [close] never adds a session.  Every session that is left after
    it was registered before with the same entry, and the attempt to stop
    it raised in [terminate] or [kill]; so when no attempt raises, the
    registry is empty after [close].  This holds for every order in which
    the ids are listed, provided every registered id is listed. *)
Theorem close_leaves_only_failed_stops
    (dict_keys : gmap string session → list string)
    (self : StreamHandler) (env : string → stop_env) :
  (∀ m k, is_Some (m !! k) → k ∈ dict_keys m) →
  (∀ id s, active_streams (close dict_keys self env) !! id = Some s →
     active_streams self !! id = Some s ∧ stop_raises (env id) = true)
  ∧ ((∀ id, is_Some (active_streams self !! id) →
        stop_raises (env id) = false) →
     active_streams (close dict_keys self env) = ∅).
Proof.
  intros Hkeys.
  assert (Hsurv : ∀ id s,
    active_streams (close dict_keys self env) !! id = Some s →
    active_streams self !! id = Some s ∧ stop_raises (env id) = true).
  { intros id s Hs. unfold close in *.
    pose proof (lookup_weaken _ _ _ _ Hs (stop_each_subseteq env _ self)) as H0.
    split; [exact H0|].
    eapply stop_each_survivor; [|exact Hs]. apply Hkeys. by eexists. }
  split; [exact Hsurv|].
  intros Hclean. apply map_empty. intros id.
  destruct (active_streams (close dict_keys self env) !! id) as [s|] eqn:E;
    [|done].
  destruct (Hsurv id s E) as [H0 Hr].
  rewrite Hclean in Hr; [discriminate|by eexists].
Qed.

Lemma close_leaves_only_failed_stops_witness :
  active_streams
    (close (λ m, (map_to_list m).*1) five_sessions (λ _, clean_stop)) = ∅.
Proof.
  apply (close_leaves_only_failed_stops (λ m, (map_to_list m).*1)
           five_sessions (λ _, clean_stop)).
  - intros m k [s Hs]. apply list_elem_of_fmap.
    exists (k, s). split; [reflexivity|]. by apply elem_of_map_to_list.
  - intros id _. reflexivity.
Defined.

(** ** The admission step: what is started, what is kept, what is told *)

Lemma active_channels_of_spec handler clock c :
  c ∈ active_channels_of (get_active_streams handler clock)
  ↔ ∃ id s, active_streams handler !! id = Some s ∧ c = lower (channel s).
Proof.
  unfold active_channels_of, get_active_streams.
  rewrite elem_of_list_to_set, list_elem_of_fmap. split.
  - intros ([id d] & -> & Hin). apply elem_of_map_to_list in Hin.
    rewrite lookup_fmap in Hin.
    destruct (active_streams handler !! id) as [s|] eqn:E; [|discriminate].
    simpl in Hin. injection Hin as <-. by exists id, s.
  - intros (id & s & Hs & ->).
    exists (id, {| details_channel := channel s;
                   details_quality := quality s;
                   details_start_time := start_time s;
                   details_runtime := clock - start_time s |}).
    split; [reflexivity|]. apply elem_of_map_to_list.
    rewrite lookup_fmap, Hs. reflexivity.
Qed.

(** What makes a name a start candidate. *)
Lemma select_eligible self active_channels l u :
  u ∈ (select self active_channels l).1 →
  u ∈ l ∧ (lower u ∉ active_channels)
  ∧ truthy (get (get (autotuned_streamers self) (lower u) ∅)
              "auto_start" (VBool true)) = true.
Proof.
  induction l as [|v rest IH]; simpl; [by intros ?%elem_of_nil|].
  destruct (select self active_channels rest) as [ts ns]. simpl in IH.
  case_decide as Hact.
  { intros Hu. destruct (IH Hu) as (? & ? & ?). split; [by right|done]. }
  destruct (truthy (get (get _ (lower v) ∅) "auto_start" _)) eqn:Ht; simpl.
  - intros [->|Hu]%elem_of_cons; [split; [left|done]|].
    destruct (IH Hu) as (? & ? & ?). split; [by right|done].
  - intros Hu. destruct (IH Hu) as (? & ? & ?). split; [by right|done].
Qed.

Lemma select_notified self active_channels l u :
  u ∈ (select self active_channels l).2 →
  u ∈ (select self active_channels l).1
  ∧ notification_callback self = true
  ∧ truthy (get (get (autotuned_streamers self) (lower u) ∅)
              "notifications" (VBool true)) = true.
Proof.
  induction l as [|v rest IH]; simpl; [by intros ?%elem_of_nil|].
  destruct (select self active_channels rest) as [ts ns]. simpl in IH.
  case_decide as Hact; [exact IH|].
  destruct (truthy (get (get _ (lower v) ∅) "auto_start" _)); simpl;
    [|exact IH].
  destruct (truthy (get (get _ (lower v) ∅) "notifications" _)) eqn:Hn;
    simpl.
  - destruct (notification_callback self) eqn:Hc; simpl.
    + intros [->|Hu]%elem_of_cons; [split; [left|done]|].
      destruct (IH Hu) as (? & ? & ?). split; [by right|done].
    + intros Hu. destruct (IH Hu) as (? & ? & ?). split; [by right|done].
  - intros Hu. destruct (IH Hu) as (? & ? & ?). split; [by right|done].
Qed.

Lemma limit_elem_of self active l u : u ∈ limit self active l → u ∈ l.
Proof.
  destruct (limit_prefix self active l) as [n ->].
  intros (i & Hu & _)%elem_of_take. by eapply list_elem_of_lookup_2.
Qed.

Lemma limit_nil self active : limit self active [] = [].
Proof.
  unfold limit, slice_to. destruct (_ >? _); [|done].
  destruct (_ <? 0); by rewrite take_nil.
Qed.

Lemma start_stream_keeps self name q params env id :
  is_Some (active_streams self !! id) →
  is_Some (active_streams (start_stream self name q params env).2 !! id).
Proof.
  intros Hid. rewrite start_stream_cases. case_decide; [done|].
  destruct (join_error _ _); [done|]. destruct (spawn env); [|done].
  simpl. rewrite lookup_insert. by case_decide.
Qed.

Lemma start_stream_entry self name q params env id s :
  active_streams (start_stream self name q params env).2 !! id = Some s →
  active_streams self !! id = Some s ∨ channel s = name.
Proof.
  rewrite start_stream_cases. case_decide; [by left|].
  destruct (join_error _ _); [by left|]. destruct (spawn env); [|by left].
  simpl. rewrite lookup_insert. case_decide; [|by left].
  intros [= <-]. by right.
Qed.

Lemma start_stream_returned_registered self name q params env :
  (start_stream self name q params env).1.1 = true →
  is_Some (active_streams (start_stream self name q params env).2
             !! (start_stream self name q params env).1.2).
Proof.
  rewrite start_stream_cases. case_decide; [discriminate|].
  destruct (join_error _ _); [discriminate|].
  destruct (spawn env); [|discriminate].
  simpl. intros _. rewrite lookup_insert_eq. by eexists.
Qed.

Section StartLoopFacts.

Variable self : AutotuneManager.
Variable env : nat → launch_env.

Lemma start_all_keeps l : ∀ i handler started id,
  is_Some (active_streams handler !! id) →
  is_Some (active_streams (start_all self env i l handler started).2 !! id).
Proof.
  induction l as [|u rest IH]; intros i handler started id Hid; simpl; [done|].
  destruct (autotuned_streamers self !! u) as [ss|]; [|done].
  pose proof (start_stream_keeps handler u
                (get ss "quality" (VStr (default_quality self))) ∅ (env i)
                id Hid) as Hk.
  destruct (start_stream handler u _ ∅ (env i)) as [[ok sid] handler'].
  by apply IH.
Qed.

Lemma start_all_entry l : ∀ i handler started id s,
  active_streams (start_all self env i l handler started).2 !! id = Some s →
  active_streams handler !! id = Some s
  ∨ (channel s ∈ l ∧ is_Some (autotuned_streamers self !! channel s)).
Proof.
  induction l as [|u rest IH]; intros i handler started id s; simpl;
    [by left|].
  destruct (autotuned_streamers self !! u) as [ss|] eqn:Eu; [|by left].
  pose proof (start_stream_entry handler u
                (get ss "quality" (VStr (default_quality self))) ∅ (env i)
                id s) as He.
  destruct (start_stream handler u _ ∅ (env i)) as [[ok sid] handler'].
  intros Hs. destruct (IH _ _ _ _ _ Hs) as [Hs'|[Hin Htr]].
  - destruct (He Hs') as [?|<-]; [by left|].
    right. split; [left|by rewrite Eu].
  - right. split; [by right|done].
Qed.

Lemma start_all_registered l : ∀ i handler started ids,
  (∀ id, id ∈ started → is_Some (active_streams handler !! id)) →
  (start_all self env i l handler started).1 = Ok ids →
  (∀ id, id ∈ started → id ∈ ids)
  ∧ (∀ id, id ∈ ids →
       is_Some (active_streams (start_all self env i l handler started).2
                  !! id))
  ∧ (length ids ≤ length started + length l)%nat.
Proof.
  induction l as [|u rest IH]; intros i handler started ids Hst; simpl.
  { intros [= <-]. split; [done|]. split; [done|lia]. }
  destruct (autotuned_streamers self !! u) as [ss|]; [|discriminate].
  pose proof (start_stream_returned_registered handler u
                (get ss "quality" (VStr (default_quality self))) ∅ (env i))
    as Hret.
  pose proof (λ id, start_stream_keeps handler u
                (get ss "quality" (VStr (default_quality self))) ∅ (env i) id)
    as Hkeep.
  destruct (start_stream handler u _ ∅ (env i)) as [[ok sid] handler'].
  simpl in Hret, Hkeep. intros Hids.
  apply IH in Hids as (H1 & H2 & H3).
  - split; [|split; [exact H2|]].
    + intros id Hid. apply H1. destruct ok; [|done].
      apply elem_of_app. by left.
    + destruct ok; [rewrite length_app in H3; simpl in H3|]; lia.
  - intros id Hid. destruct ok; [|by apply Hkeep, Hst].
    apply elem_of_app in Hid as [Hid|Hid%list_elem_of_singleton].
    + by apply Hkeep, Hst.
    + subst id. by apply Hret.
Qed.

Lemma start_all_started l : ∀ i handler started ids id,
  (start_all self env i l handler started).1 = Ok ids →
  id ∈ started → id ∈ ids.
Proof.
  induction l as [|u rest IH]; intros i handler started ids id; simpl.
  { by intros [= <-]. }
  destruct (autotuned_streamers self !! u) as [ss|]; [|discriminate].
  destruct (start_stream handler u _ ∅ (env i)) as [[ok sid] handler'].
  intros Hids Hid. eapply IH; [exact Hids|].
  destruct ok; [|done]. apply elem_of_app. by left.
Qed.

Lemma start_all_reaches l : ∀ i0 handler started i u ss q proc,
  (∀ v, v ∈ l → is_Some (autotuned_streamers self !! v)) →
  l !! i = Some u →
  u ≠ "" →
  autotuned_streamers self !! u = Some ss →
  get ss "quality" (VStr (default_quality self)) = VStr q →
  spawn (env (i0 + i)%nat) = Spawned proc →
  ∃ ids, (start_all self env i0 l handler started).1 = Ok ids
    ∧ (stream_id_of u (VStr q) (env (i0 + i)%nat)) ∈ ids.
Proof.
  induction l as [|v rest IH];
    intros i0 handler started i u ss q proc Hall Hi Hu Hss Hq Hsp;
    [by rewrite lookup_nil in Hi|].
  assert (Hrest : ∀ w, w ∈ rest → is_Some (autotuned_streamers self !! w))
    by (intros w Hw; apply Hall; by right).
  destruct i as [|i]; simpl in Hi.
  - injection Hi as ->. simpl. rewrite Hss, Hq.
    rewrite Nat.add_0_r in *. rewrite start_stream_cases.
    rewrite decide_False by done. unfold command.
    rewrite lookup_empty. simpl. rewrite Hsp.
    match goal with
    | |- ∃ ids, (start_all _ _ _ _ ?h ?st).1 = _ ∧ _ =>
        destruct (start_all_tracked self env rest (S i0) h st Hrest)
          as [ids Hids]
    end.
    exists ids. split; [exact Hids|].
    eapply start_all_started; [exact Hids|].
    apply elem_of_app. right. by apply list_elem_of_singleton.
  - simpl. destruct (Hall v) as [ss' Hv]; [left|]. rewrite Hv.
    destruct (start_stream handler v _ ∅ (env i0)) as [[ok sid] handler'].
    rewrite <- Nat.add_succ_comm in *.
    by eapply (IH (S i0)).
Qed.

End StartLoopFacts.

Section StepFacts.

Variable set_iter : gset string → list string.
Hypothesis set_iter_sound : ∀ X x, x ∈ set_iter X → x ∈ X.

Lemma set_iter_empty : set_iter ∅ = [].
Proof.
  destruct (set_iter ∅) as [|x l] eqn:E; [done|].
  exfalso. apply (not_elem_of_empty (C:=gset string) x).
  apply set_iter_sound. rewrite E. left.
Qed.

(** The pieces of a step on a non-empty live set. *)
Lemma start_autotuned_streams_step self handler live clock env :
  live ≠ ∅ →
  let self' := set_currently_live live self in
  let selected :=
    select self' (active_channels_of (get_active_streams handler clock))
      (set_iter (live ∖ _currently_live self)) in
  let r := start_all self' env 0
             (limit self' (size (get_active_streams handler clock)) selected.1)
             handler [] in
  start_autotuned_streams set_iter self handler live clock env
  = {| returned := r.1; notifications := selected.2;
       manager_after := self'; handler_after := r.2 |}.
Proof.
  intros Hne. unfold start_autotuned_streams. rewrite decide_False by done.
  cbv zeta. destruct (select _ _ _) as [to_start notified]. simpl.
  destruct (start_all _ _ _ _ _ _). reflexivity.
Qed.

Lemma start_autotuned_streams_nothing_new self handler live clock env :
  live ⊆ _currently_live self →
  returned (start_autotuned_streams set_iter self handler live clock env)
    = Ok []
  ∧ notifications (start_autotuned_streams set_iter self handler live clock env)
    = []
  ∧ handler_after (start_autotuned_streams set_iter self handler live clock env)
    = handler.
Proof.
  intros Hsub. destruct (decide (live = ∅)) as [->|Hne].
  { by rewrite start_autotuned_streams_empty. }
  rewrite start_autotuned_streams_step by done. cbv zeta.
  assert (live ∖ _currently_live self = ∅) as ->.
  { apply set_eq. intros x. rewrite elem_of_difference.
    split; [intros [Hx Hn]; by apply Hsub in Hx|by intros ?%not_elem_of_empty]. }
  rewrite set_iter_empty. simpl. rewrite limit_nil. done.
Qed.

End StepFacts.

(** X10.  A tick whose live set holds no name that the previous tick did
    not already record starts nothing: it returns the empty list, calls no
    callback and leaves the handler as it is.  In particular, when two
    ticks in a row see the same live set, the second one starts nothing,
    also for the names the first one dropped because of the cap or failed
    to start. *)
Theorem same_live_set_starts_nothing
    (set_iter : gset string → list string) (self : AutotuneManager)
    (handler : StreamHandler) (live : gset string) (clock clock' : Z)
    (env env' : nat → launch_env) :
  (∀ X x, x ∈ set_iter X → x ∈ X) →
  (live ⊆ _currently_live self →
     returned (start_autotuned_streams set_iter self handler live clock env)
       = Ok []
     ∧ handler_after
         (start_autotuned_streams set_iter self handler live clock env)
       = handler)
  ∧ (let first := start_autotuned_streams set_iter self handler live clock env in
     let second :=
       start_autotuned_streams set_iter (manager_after first)
         (handler_after first) live clock' env' in
     returned second = Ok []
     ∧ notifications second = []
     ∧ handler_after second = handler_after first).
Proof.
  intros Hiter. split.
  - intros Hsub.
    destruct (start_autotuned_streams_nothing_new set_iter Hiter self handler
                live clock env Hsub) as (? & _ & ?). done.
  - cbv zeta. destruct (decide (live = ∅)) as [->|Hne].
    + by rewrite !start_autotuned_streams_empty.
    + apply start_autotuned_streams_nothing_new; [exact Hiter|].
      rewrite start_autotuned_streams_live by done. done.
Qed.

Lemma elements_sound (X : gset string) x : x ∈ elements X → x ∈ X.
Proof. apply elem_of_elements. Qed.

Lemma same_live_set_starts_nothing_witness :
  let tracked :=
    set_autotuned_streamers {[ "ghost" := ∅; "zed" := ∅ ]}
      (set_running false None
         {| settings := default_settings; autotuned_streamers := ∅;
            check_interval := 60; max_concurrent_streams := 1;
            default_quality := "best"; notification_callback := false;
            _running := false; _check_task := None; _last_check_time := 0;
            _currently_live := ∅ |}) in
  let first :=
    start_autotuned_streams elements tracked idle_handler
      {[ "ghost"; "zed" ]} 0 all_spawn in
  let second :=
    start_autotuned_streams elements (manager_after first)
      (handler_after first) {[ "ghost"; "zed" ]} 60 all_spawn in
  size (active_streams (handler_after first)) = 1%nat
  ∧ returned second = Ok []
  ∧ handler_after second = handler_after first.
Proof.
  intros tracked first second. split; [vm_compute; reflexivity|].
  destruct (proj2 (same_live_set_starts_nothing elements tracked idle_handler
                     {[ "ghost"; "zed" ]} 0 60 all_spawn all_spawn
                     elements_sound)) as (Hr & _ & Hh).
  split; [exact Hr | exact Hh].
Defined.

(** X11.  A session that is in the registry after a tick either was there
    before, with the same entry, or is for a name that is in the live set,
    was not recorded as live by the previous tick, is a key of the store,
    has auto-start on (or unset), and differs, case ignored, from the
    channel of every session that was active when the tick began.  So a
    channel that is already playing gets no second session, and a streamer
    with auto-start off is never started. *)
Theorem new_sessions_are_eligible
    (set_iter : gset string → list string) (self : AutotuneManager)
    (handler : StreamHandler) (live : gset string) (clock : Z)
    (env : nat → launch_env) (id : string) (s : session) :
  (∀ X x, x ∈ set_iter X → x ∈ X) →
  active_streams
    (handler_after (start_autotuned_streams set_iter self handler live
                      clock env)) !! id = Some s →
  active_streams handler !! id = Some s
  ∨ (channel s ∈ live
     ∧ (channel s ∉ _currently_live self)
     ∧ is_Some (autotuned_streamers self !! channel s)
     ∧ truthy (get (get (autotuned_streamers self) (lower (channel s)) ∅)
                 "auto_start" (VBool true)) = true
     ∧ ∀ id' s', active_streams handler !! id' = Some s' →
                 lower (channel s') ≠ lower (channel s)).
Proof.
  intros Hiter. destruct (decide (live = ∅)) as [->|Hne].
  { rewrite start_autotuned_streams_empty. by left. }
  rewrite start_autotuned_streams_step by done. cbv zeta. simpl.
  intros Hs. apply start_all_entry in Hs as [Hs|[Hin Htr]]; [by left|].
  right. apply limit_elem_of, select_eligible in Hin as (Hin & Hact & Hauto).
  apply Hiter, elem_of_difference in Hin as [Hlive Hnew].
  split; [exact Hlive|]. split; [exact Hnew|]. split; [exact Htr|].
  split; [exact Hauto|].
  intros id' s' Hs' Heq. apply Hact.
  apply active_channels_of_spec. exists id', s'. by split.
Qed.

Lemma new_sessions_are_eligible_witness :
  let tracked :=
    set_autotuned_streamers {[ "ghost" := ∅; "zed" := ∅ ]} fresh_manager in
  "ghost" ∈ ({[ "ghost"; "zed" ]} : gset string)
  ∧ is_Some (autotuned_streamers tracked !! "ghost").
Proof.
  intros tracked.
  destruct (new_sessions_are_eligible elements tracked idle_handler
              {[ "ghost"; "zed" ]} 0 all_spawn "ghost_best_0"
              {| process := 100; channel := "ghost"; quality := VStr "best";
                 start_time := 5 |} elements_sound)
    as [H|(Hlive & _ & Htracked & _)].
  - vm_compute. reflexivity.
  - vm_compute in H. discriminate.
  - split; [exact Hlive | exact Htracked].
Defined.

(** X12.  A tick never removes a session: every id that is registered
    when it begins is registered when it ends, whether the tick returns or
    raises. *)
Theorem tick_keeps_sessions
    (set_iter : gset string → list string) (self : AutotuneManager)
    (handler : StreamHandler) (live : gset string) (clock : Z)
    (env : nat → launch_env) (id : string) :
  is_Some (active_streams handler !! id) →
  is_Some (active_streams
             (handler_after (start_autotuned_streams set_iter self handler
                               live clock env)) !! id).
Proof.
  intros Hid. unfold start_autotuned_streams. case_decide; [done|].
  cbv zeta. destruct (select _ _ _) as [to_start notified].
  pose proof (start_all_keeps (set_currently_live live self) env
                (limit (set_currently_live live self)
                   (size (get_active_streams handler clock)) to_start)
                0 handler [] id Hid) as Hk.
  by destruct (start_all _ _ _ _ _ _).
Qed.

Lemma tick_keeps_sessions_witness :
  let tracked :=
    set_autotuned_streamers {[ "ghost" := ∅; "zed" := ∅ ]} fresh_manager in
  is_Some (active_streams
             (handler_after (start_autotuned_streams elements tracked
                               five_sessions {[ "ghost"; "zed" ]} 0 all_spawn))
             !! "p_best_00000001").
Proof.
  intros tracked.
  apply (tick_keeps_sessions elements tracked five_sessions
           {[ "ghost"; "zed" ]} 0 all_spawn "p_best_00000001").
  vm_compute. by eexists.
Defined.

(** X13.  When a tick returns, every stream id in the list it returns is
    registered in the handler; and when the tick began at or below the
    cap, the list is no longer than the number of free slots. *)
Theorem returned_ids_are_registered
    (set_iter : gset string → list string) (self : AutotuneManager)
    (handler : StreamHandler) (live : gset string) (clock : Z)
    (env : nat → launch_env) (ids : list string) :
  returned (start_autotuned_streams set_iter self handler live clock env)
    = Ok ids →
  (∀ id, id ∈ ids →
     is_Some (active_streams
                (handler_after (start_autotuned_streams set_iter self handler
                                  live clock env)) !! id))
  ∧ (Z.of_nat (size (active_streams handler)) ≤ max_concurrent_streams self →
     Z.of_nat (length ids)
       ≤ max_concurrent_streams self - Z.of_nat (size (active_streams handler))).
Proof.
  destruct (decide (live = ∅)) as [->|Hne].
  { rewrite start_autotuned_streams_empty. simpl. intros [= <-].
    split; [by intros id ?%elem_of_nil|]. simpl. lia. }
  rewrite start_autotuned_streams_step by done. cbv zeta. simpl.
  intros Hids.
  apply start_all_registered in Hids as (_ & Hreg & Hlen);
    [|by intros id ?%elem_of_nil].
  split; [exact Hreg|]. intros Hle.
  pose proof (limit_length (set_currently_live live self)
                (size (get_active_streams handler clock))
                (select (set_currently_live live self)
                   (active_channels_of (get_active_streams handler clock))
                   (set_iter (live ∖ _currently_live self))).1) as Hlim.
  rewrite get_active_streams_size in *. simpl in *. lia.
Qed.

Lemma returned_ids_are_registered_witness :
  let tracked :=
    set_autotuned_streamers {[ "ghost" := ∅; "zed" := ∅ ]} fresh_manager in
  let r := start_autotuned_streams elements tracked idle_handler
             {[ "ghost"; "zed" ]} 0 all_spawn in
  is_Some (active_streams (handler_after r) !! "zed_best_1").
Proof.
  intros tracked r.
  assert (returned r = Ok ["ghost_best_0"; "zed_best_1"]) as Hr
    by (vm_compute; reflexivity).
  apply (proj1 (returned_ids_are_registered elements tracked idle_handler
                  {[ "ghost"; "zed" ]} 0 all_spawn
                  ["ghost_best_0"; "zed_best_1"] Hr)).
  right. left.
Defined.

(** X14.  The notification callback is called only for names that were
    chosen as start candidates (newly live, not playing, auto-start on or
    unset) and whose settings have notifications on (or unset); without a
    callback there is no call.  The calls are made before the cap is
    applied, so a candidate that the cap then drops has been announced all
    the same: with a cap of 1 and "ghost" and "zed" newly live, both are
    announced and only "ghost" is started. *)
Theorem notifications_follow_selection
    (set_iter : gset string → list string) (self : AutotuneManager)
    (handler : StreamHandler) (live : gset string) (clock : Z)
    (env : nat → launch_env) :
  (∀ X x, x ∈ set_iter X → x ∈ X) →
  let r := start_autotuned_streams set_iter self handler live clock env in
  (notification_callback self = false → notifications r = [])
  ∧ (∀ u, u ∈ notifications r →
       u ∈ live ∧ (u ∉ _currently_live self)
       ∧ truthy (get (get (autotuned_streamers self) (lower u) ∅)
                   "auto_start" (VBool true)) = true
       ∧ truthy (get (get (autotuned_streamers self) (lower u) ∅)
                   "notifications" (VBool true)) = true
       ∧ ∀ id' s', active_streams handler !! id' = Some s' →
                   lower (channel s') ≠ lower u)
  ∧ (let capped :=
       set_autotuned_streamers {[ "ghost" := ∅; "zed" := ∅ ]}
         {| settings := default_settings; autotuned_streamers := ∅;
            check_interval := 60; max_concurrent_streams := 1;
            default_quality := "best"; notification_callback := true;
            _running := false; _check_task := None; _last_check_time := 0;
            _currently_live := ∅ |} in
     let r' := start_autotuned_streams elements capped idle_handler
                 {[ "ghost"; "zed" ]} 0 all_spawn in
     notifications r' = ["ghost"; "zed"]
     ∧ returned r' = Ok ["ghost_best_0"]).
Proof.
  intros Hiter. cbv zeta. destruct (decide (live = ∅)) as [->|Hne].
  { rewrite start_autotuned_streams_empty. simpl.
    split; [done|]. split; [by intros u ?%elem_of_nil|].
    vm_compute. split; reflexivity. }
  rewrite start_autotuned_streams_step by done. cbv zeta. simpl.
  split; [|split].
  - intros Hcb.
    destruct (select _ _ _).2 as [|u l] eqn:E; [done|exfalso].
    assert (u ∈ (select (set_currently_live live self)
                   (active_channels_of (get_active_streams handler clock))
                   (set_iter (live ∖ _currently_live self))).2) as Hu
      by (rewrite E; left).
    apply select_notified in Hu as (_ & Hc & _). simpl in Hc. congruence.
  - intros u Hu. apply select_notified in Hu as (Hsel & _ & Hnot).
    apply select_eligible in Hsel as (Hin & Hact & Hauto).
    apply Hiter, elem_of_difference in Hin as [Hlive Hnew].
    split; [exact Hlive|]. split; [exact Hnew|]. split; [exact Hauto|].
    split; [exact Hnot|].
    intros id' s' Hs' Heq. apply Hact.
    apply active_channels_of_spec. exists id', s'. by split.
  - vm_compute. split; reflexivity.
Qed.

Lemma notifications_follow_selection_witness :
  let tracked :=
    set_autotuned_streamers {[ "ghost" := ∅; "zed" := ∅ ]} fresh_manager in
  notifications (start_autotuned_streams elements tracked idle_handler
                   {[ "ghost"; "zed" ]} 0 all_spawn) = [].
Proof.
  intros tracked.
  apply (proj1 (notifications_follow_selection elements tracked idle_handler
                  {[ "ghost"; "zed" ]} 0 all_spawn elements_sound)).
  reflexivity.
Defined.


(** X15.  In the loop that starts the streams, a start that fails does
    not stop the loop.  When every candidate is a key of the store, the
    loop returns normally; and every candidate with a non-empty name and a
    string quality whose spawn succeeds has its stream id in the returned
    list, whatever happens to the candidates before and after it. *)
Theorem failed_start_does_not_block
    (self : AutotuneManager) (env : nat → launch_env)
    (candidates : list string) (handler : StreamHandler)
    (i : nat) (u : string) (ss : policy) (q : string) (proc : nat) :
  (∀ v, v ∈ candidates → is_Some (autotuned_streamers self !! v)) →
  candidates !! i = Some u →
  u ≠ "" →
  autotuned_streamers self !! u = Some ss →
  get ss "quality" (VStr (default_quality self)) = VStr q →
  spawn (env i) = Spawned proc →
  ∃ ids, (start_all self env 0 candidates handler []).1 = Ok ids
    ∧ (u +:+ "_" +:+ q +:+ "_" +:+ nonce (env i)) ∈ ids.
Proof.
  intros Hall Hi Hu Hss Hq Hsp.
  exact (start_all_reaches self env candidates 0 handler [] i u ss q proc
           Hall Hi Hu Hss Hq Hsp).
Qed.

(** An environment in which the first spawn fails and the others
    succeed. *)
Lemma failed_start_does_not_block_witness :
  let tracked :=
    set_autotuned_streamers {[ "ghost" := ∅; "zed" := ∅ ]} fresh_manager in
  let env := λ i : nat,
    {| nonce := pretty i;
       spawn := match i with
                | O => SpawnRaises "No such file"
                | S _ => Spawned 7
                end;
       now := 0 |} in
  ∃ ids, (start_all tracked env 0 ["ghost"; "zed"] idle_handler []).1 = Ok ids
    ∧ "zed_best_1" ∈ ids.
Proof.
  intros tracked env.
  apply (failed_start_does_not_block tracked env ["ghost"; "zed"] idle_handler
           1 "zed" ∅ "best" 7).
  - intros v Hv. apply elem_of_cons in Hv as [->|Hv]; [by eexists|].
    apply list_elem_of_singleton in Hv as ->. by eexists.
  - reflexivity.
  - discriminate.
  - reflexivity.
  - reflexivity.
  - reflexivity.
Defined.

(** ** Polling the service *)

Lemma live_usernames_of_spec streams : ∀ names u,
  live_usernames_of streams = Ok names →
  u ∈ names →
  ∃ stream login,
    stream ∈ streams ∧ stream !! "user_login" = Some (VStr login)
    ∧ u = lower login.
Proof.
  induction streams as [|stream rest IH]; intros names u; simpl.
  { intros [= <-] Hu. by apply not_elem_of_empty in Hu. }
  destruct (stream !! "user_login") as [[| | |login]|] eqn:E;
    try discriminate.
  - destruct (live_usernames_of rest) as [names'|] eqn:Er; [|discriminate].
    intros [= <-] [Hu|Hu]%elem_of_union.
    + apply elem_of_singleton in Hu as ->. exists stream, login.
      split; [left|done].
    + destruct (IH names' u eq_refl Hu) as (s & l & Hs & Hl & ->).
      exists s, l. split; [by right|done].
  - intros Hn Hu. destruct (IH names u Hn Hu) as (s & l & Hs & Hl & ->).
    exists s, l. split; [by right|done].
Qed.

Lemma get_live_streams_from_service twitch api user_ids stream :
  stream ∈ get_live_streams twitch api user_ids →
  client twitch = true
  ∧ ∃ streams, streams_of api user_ids = Ok streams ∧ stream ∈ streams.
Proof.
  unfold get_live_streams. destruct (client twitch); simpl;
    [|by intros ?%elem_of_nil].
  destruct user_ids as [|id ids]; [by intros ?%elem_of_nil|].
  destruct (streams_of api (id :: ids)) as [streams|];
    [|by intros ?%elem_of_nil].
  intros Hs. split; [done|]. by exists streams.
Qed.

(** X16.  Every name in the set [check_live_status] returns is in lower
    case, and is the lower-cased login of a stream that the service
    reported in its answer to the stream query.  (The set is built from
    the answer alone: a reported login is not checked against the
    store.) *)
Theorem check_live_status_names
    (store_keys : store → list string) (self : AutotuneManager)
    (twitch : option TwitchIntegration) (api : remote) (u : string) :
  u ∈ check_live_status store_keys self twitch api →
  lower u = u
  ∧ ∃ user_ids streams stream login,
      streams_of api user_ids = Ok streams
      ∧ stream ∈ streams
      ∧ stream !! "user_login" = Some (VStr login)
      ∧ u = lower login.
Proof.
  unfold check_live_status. case_decide; [by intros ?%not_elem_of_empty|].
  destruct twitch as [tw|]; [|by intros ?%not_elem_of_empty].
  destruct (collect_user_ids tw api _) as [user_ids|];
    [|by intros ?%not_elem_of_empty].
  destruct (live_usernames_of _) as [names|] eqn:E;
    [|by intros ?%not_elem_of_empty].
  intros Hu.
  destruct (live_usernames_of_spec _ names u E Hu)
    as (stream & login & Hs & Hl & ->).
  split; [apply lower_idem|].
  apply get_live_streams_from_service in Hs as (_ & streams & Hq & Hs).
  by exists user_ids, streams, stream, login.
Qed.

(** A service that reports one stream, under a login in mixed case. *)
Lemma check_live_status_names_witness :
  let api :=
    {| users_by_login := λ u, Ok (Some {[ "id" := VStr ("id-" +:+ u) ]});
       users_by_id := λ _, Ok None;
       streams_of := λ _, Ok [ {[ "user_login" := VStr "Ninja" ]} ] |} in
  let self := set_autotuned_streamers {[ "ninja" := ∅ ]} fresh_manager in
  "ninja" ∈ check_live_status (λ m, (map_to_list m).*1) self
              (Some {| client := true |}) api
  ∧ lower "ninja" = "ninja".
Proof.
  intros api self.
  assert ("ninja" ∈ check_live_status (λ m, (map_to_list m).*1) self
                      (Some {| client := true |}) api) as Hin.
  { vm_compute. reflexivity. }
  split; [exact Hin|].
  exact (proj1 (check_live_status_names _ self _ api "ninja" Hin)).
Defined.

Lemma collect_user_ids_skip twitch api u : ∀ before after,
  get_user_info twitch api u "" = None →
  collect_user_ids twitch api (before ++ u :: after)
  = collect_user_ids twitch api (before ++ after).
Proof.
  induction before as [|v before IH]; intros after Hu; simpl.
  - by rewrite Hu.
  - rewrite (IH after Hu). reflexivity.
Qed.

(** X17.  A tracked streamer whose user lookup raises, or whom the service
    does not know, is left out of the stream query and the others are
    still queried: the collected ids are those of the list without that
    streamer. *)
Theorem failed_user_lookup_is_skipped
    (twitch : TwitchIntegration) (api : remote) (u : string)
    (before after : list string) :
  (∃ e, users_by_login api u = Raise e) ∨ users_by_login api u = Ok None →
  get_user_info twitch api u "" = None
  ∧ collect_user_ids twitch api (before ++ u :: after)
    = collect_user_ids twitch api (before ++ after).
Proof.
  intros Hu.
  assert (get_user_info twitch api u "" = None) as Hnone.
  { unfold get_user_info. destruct (client twitch); [|done]. simpl.
    destruct (String.eqb u "") eqn:E; [done|]. simpl.
    by destruct Hu as [[e ->]| ->]. }
  split; [exact Hnone|]. by apply collect_user_ids_skip.
Qed.

Lemma failed_user_lookup_is_skipped_witness :
  let api :=
    {| users_by_login := λ u,
         if String.eqb u "ghost" then Raise (OtherError "TwitchAPIException")
         else Ok (Some {[ "id" := VStr ("id-" +:+ u) ]});
       users_by_id := λ _, Ok None;
       streams_of := λ _, Ok [] |} in
  collect_user_ids {| client := true |} api ["ninja"; "ghost"; "zed"]
  = Ok [VStr "id-ninja"; VStr "id-zed"].
Proof.
  intros api.
  etrans; [|reflexivity].
  exact (proj2 (failed_user_lookup_is_skipped {| client := true |} api
                  "ghost" ["ninja"] ["zed"]
                  (or_introl (ex_intro _ (OtherError "TwitchAPIException")
                                eq_refl)))).
Defined.

Section PollingFacts.

Variable set_iter : gset string → list string.
Variable store_keys : store → list string.

Lemma check_live_status_unavailable self twitch api :
  autotuned_streamers self = ∅
  ∨ twitch = None
  ∨ (∃ tw, twitch = Some tw ∧ client tw = false)
  ∨ (∀ user_ids, ∃ e, streams_of api user_ids = Raise e) →
  check_live_status store_keys self twitch api = ∅.
Proof.
  unfold check_live_status. intros [Hs|[->|[(tw & -> & Hc)|Hq]]].
  - by rewrite decide_True.
  - by case_decide.
  - case_decide; [done|].
    assert (∀ l, collect_user_ids tw api l = Ok []) as ->.
    { induction l as [|v l IH]; [done|]. simpl. unfold get_user_info.
      by rewrite Hc. }
    unfold get_live_streams. by rewrite Hc.
  - case_decide; [done|]. destruct twitch as [tw|]; [|done].
    destruct (collect_user_ids tw api _) as [user_ids|]; [|done].
    unfold get_live_streams. destruct (client tw); [|done]. simpl.
    destruct user_ids as [|id ids]; [done|].
    by destruct (Hq (id :: ids)) as [e ->].
Qed.

Lemma check_and_start_streams_quiet self handler twitch api time clock env :
  check_live_status store_keys self twitch api = ∅ →
  check_and_start_streams set_iter store_keys self handler twitch api time
    clock env
  = {| returned := Ok []; notifications := [];
       manager_after := set_last_check_time time self;
       handler_after := handler |}.
Proof.
  intros Hq. unfold check_and_start_streams.
  assert (check_live_status store_keys (set_last_check_time time self)
            twitch api = ∅) as -> by exact Hq.
  apply start_autotuned_streams_empty.
Qed.

End PollingFacts.

(** X18.  When the service cannot be asked (the store is empty, the
    manager has no Twitch object, its client is not initialized, or the
    stream query raises), a tick returns the empty list, starts and
    announces nothing, and changes nothing in the manager but the time of
    the last check: the live set recorded by the previous tick stays as it
    is.  The same holds for a tick in which the service reports nobody
    live. *)
Theorem tick_without_answer_keeps_state
    (set_iter : gset string → list string) (store_keys : store → list string)
    (self : AutotuneManager) (handler : StreamHandler)
    (twitch : option TwitchIntegration) (api : remote) (time clock : Z)
    (env : nat → launch_env) :
  (autotuned_streamers self = ∅
   ∨ twitch = None
   ∨ (∃ tw, twitch = Some tw ∧ client tw = false)
   ∨ (∀ user_ids, ∃ e, streams_of api user_ids = Raise e)
   ∨ check_live_status store_keys self twitch api = ∅) →
  let r := check_and_start_streams set_iter store_keys self handler twitch
             api time clock env in
  returned r = Ok [] ∧ notifications r = []
  ∧ handler_after r = handler
  ∧ manager_after r = set_last_check_time time self
  ∧ _currently_live (manager_after r) = _currently_live self
  ∧ _last_check_time (manager_after r) = time.
Proof.
  intros Hq. cbv zeta.
  rewrite check_and_start_streams_quiet; [by repeat split|].
  destruct Hq as [H|[H|[H|[H|H]]]]; [| | | |exact H];
    apply check_live_status_unavailable; tauto.
Qed.

Lemma tick_without_answer_keeps_state_witness :
  let self :=
    set_currently_live {[ "ninja" ]}
      (set_autotuned_streamers {[ "ninja" := ∅ ]} fresh_manager) in
  let r := check_and_start_streams elements (λ m, (map_to_list m).*1) self
             five_sessions (Some {| client := true |}) failing_service
             1700000000 0 all_spawn in
  handler_after r = five_sessions
  ∧ _currently_live (manager_after r) = {[ "ninja" ]}.
Proof.
  intros self r.
  destruct (tick_without_answer_keeps_state elements
              (λ m, (map_to_list m).*1) self five_sessions
              (Some {| client := true |}) failing_service 1700000000 0
              all_spawn) as (_ & _ & Hh & _ & Hl & _).
  - right. right. right. left. intros user_ids. by eexists.
  - split; [exact Hh | exact Hl].
Defined.

(** ** The loop task: starting, running, restarting *)

Lemma start_stopped r :
  _running (manager r) = false →
  start r
  = {| manager := set_running true (Some (fresh (dom (tasks r)))) (manager r);
       tasks := <[fresh (dom (tasks r)) :=
                    {| state := Suspended AtStart false;
                       ticks_completed := 0 |}]> (tasks r) |}.
Proof. intros Hr. unfold start. by rewrite Hr. Qed.

Lemma fresh_handle_unused (m : gmap nat task) : m !! fresh (dom m) = None.
Proof. apply not_elem_of_dom, is_fresh. Qed.

(** X19.  [start] is idempotent, and on a running manager it does
    nothing.  On a manager that is not running it sets the running flag and
    creates one task, under a handle no task had, that has not run yet and
    is not marked for cancellation; the tasks that exist are left as they
    are. *)
Theorem start_creates_one_task (r : runtime) :
  start (start r) = start r
  ∧ (_running (manager r) = true → start r = r)
  ∧ (_running (manager r) = false →
     _running (manager (start r)) = true
     ∧ ∃ handle,
         _check_task (manager (start r)) = Some handle
         ∧ tasks r !! handle = None
         ∧ tasks (start r) !! handle
           = Some {| state := Suspended AtStart false; ticks_completed := 0 |}
         ∧ ∀ other, other ≠ handle →
             tasks (start r) !! other = tasks r !! other).
Proof.
  assert (Hrun : _running (manager r) = true → start r = r).
  { intros Hr. unfold start. by rewrite Hr. }
  split; [|split; [exact Hrun|]].
  - destruct (_running (manager r)) eqn:Hr.
    + by rewrite !Hrun.
    + rewrite (start_stopped r Hr). unfold start at 1. reflexivity.
  - intros Hr. rewrite (start_stopped r Hr). simpl. split; [reflexivity|].
    exists (fresh (dom (tasks r))). split; [reflexivity|].
    split; [apply fresh_handle_unused|].
    split; [apply lookup_insert_eq|].
    intros other Hne. by apply lookup_insert_ne.
Qed.

Lemma start_creates_one_task_witness :
  let idle := {| manager := fresh_manager; tasks := ∅ |} in
  _running (manager (start idle)) = true
  ∧ ∃ handle, _check_task (manager (start idle)) = Some handle
      ∧ tasks (start idle) !! handle
        = Some {| state := Suspended AtStart false; ticks_completed := 0 |}.
Proof.
  intros idle.
  destruct (proj2 (proj2 (start_creates_one_task idle)) eq_refl)
    as (Hr & handle & Hc & _ & Ht & _).
  split; [exact Hr|]. by exists handle.
Defined.

Lemma resume_lookup handle waits r :
  tasks (resume handle waits r) !! handle
  = _check_loop (_running (manager r)) waits <$> tasks r !! handle.
Proof. unfold resume. simpl. apply lookup_alter_eq. Qed.

Lemma resume_manager handle waits r : manager (resume handle waits r) = manager r.
Proof. reflexivity. Qed.

(** Left alone, a running loop task stays suspended and unmarked. *)
Lemma run_keeps_going handle n : ∀ waits r p done,
  _running (manager r) = true →
  tasks r !! handle
    = Some {| state := Suspended p false; ticks_completed := done |} →
  ∃ p' done',
    tasks (run handle waits n r) !! handle
      = Some {| state := Suspended p' false; ticks_completed := done' |}
    ∧ (done ≤ done')%nat
    ∧ manager (run handle waits n r) = manager r.
Proof.
  induction n as [|n IH]; intros waits r p done Hr Ht; cbn [run].
  { exists p, done. split; [exact Ht|]. split; [lia|reflexivity]. }
  assert (∃ p1 done1,
    tasks (resume handle (waits 0%nat) r) !! handle
      = Some {| state := Suspended p1 false; ticks_completed := done1 |}
    ∧ (done ≤ done1)%nat) as (p1 & done1 & Ht1 & Hle).
  { rewrite resume_lookup, Ht, Hr. simpl. unfold _check_loop. simpl.
    destruct p as [|[|k]|]; simpl; unfold loop_head;
      try destruct (waits 0%nat); simpl; eauto. }
  destruct (IH (λ i, waits (S i)) (resume handle (waits 0%nat) r) p1 done1)
    as (p' & done' & Ht' & Hle' & Hm); [exact Hr|exact Ht1|].
  exists p', done'. split; [exact Ht'|]. split; [lia|exact Hm].
Qed.

(** A tick in flight returns after as many resumptions as it has waits
    left, plus one. *)
Lemma run_finishes_tick handle k : ∀ waits r done,
  tasks r !! handle
    = Some {| state := Suspended (InTick k) false; ticks_completed := done |} →
  tasks (run handle waits (S k) r) !! handle
  = Some {| state := Suspended InSleep false; ticks_completed := S done |}.
Proof.
  induction k as [|k IH]; intros waits r done Ht.
  - cbn [run]. rewrite resume_lookup, Ht. reflexivity.
  - change (run handle waits (S (S k)) r)
      with (run handle (λ i, waits (S i)) (S k)
              (resume handle (waits 0%nat) r)).
    apply IH. rewrite resume_lookup, Ht. reflexivity.
Qed.

(** X20.  As long as [stop] is not called, the loop task of a running
    manager never ends: after any number of resumptions it is suspended
    again and not marked for cancellation, and the count of completed
    ticks has not gone down.  A tick that is in flight with [k] waits left
    returns after [k + 1] resumptions, and the task then sleeps. *)
Theorem loop_runs_until_stopped
    (r : runtime) (handle : nat) (p : await_point) (done : nat)
    (waits : nat → nat) :
  _running (manager r) = true →
  tasks r !! handle
    = Some {| state := Suspended p false; ticks_completed := done |} →
  (∀ n, ∃ p' done',
     tasks (run handle waits n r) !! handle
       = Some {| state := Suspended p' false; ticks_completed := done' |}
     ∧ (done ≤ done')%nat)
  ∧ (∀ k, p = InTick k →
     tasks (run handle waits (S k) r) !! handle
     = Some {| state := Suspended InSleep false;
               ticks_completed := S done |}).
Proof.
  intros Hr Ht. split.
  - intros n.
    destruct (run_keeps_going handle n waits r p done Hr Ht)
      as (p' & done' & H1 & H2 & _).
    by exists p', done'.
  - intros k ->. by apply run_finishes_tick.
Qed.

Lemma loop_runs_until_stopped_witness :
  tasks (run 0 (λ _, 3%nat) 3 mid_tick) !! 0%nat
  = Some {| state := Suspended InSleep false; ticks_completed := 1 |}.
Proof.
  exact (proj2 (loop_runs_until_stopped mid_tick 0 (InTick 2) 0 (λ _, 3%nat)
                  eq_refl eq_refl) 2%nat eq_refl).
Defined.

(** X21.  Stopping a running manager and starting it again leaves the
    manager running with a new loop task: its handle differs from the old
    one, it has not run yet and is not marked for cancellation, while the
    old task stays marked and ends as cancelled when it is next resumed. *)
Theorem restart_creates_new_task
    (r : runtime) (old : nat) (t : task) (p : await_point) :
  _running (manager r) = true →
  _check_task (manager r) = Some old →
  tasks r !! old = Some t →
  state t = Suspended p false →
  let r' := start (stop r) in
  _running (manager r') = true
  ∧ ∃ new,
      _check_task (manager r') = Some new
      ∧ new ≠ old
      ∧ tasks r' !! new
        = Some {| state := Suspended AtStart false; ticks_completed := 0 |}
      ∧ tasks r' !! old
        = Some {| state := Suspended p true;
                  ticks_completed := ticks_completed t |}
      ∧ ∀ waits, tasks (resume old waits r') !! old
        = Some {| state := Cancelled; ticks_completed := ticks_completed t |}.
Proof.
  intros Hr Hc Ht Hs. cbv zeta.
  pose proof (stop_marks_task r old t p Hr Hc Ht Hs) as Hm.
  rewrite (start_stopped (stop r) (stop_not_running r)). simpl.
  split; [reflexivity|].
  exists (fresh (dom (tasks (stop r)))).
  assert (fresh (dom (tasks (stop r))) ≠ old) as Hne.
  { intros Heq. pose proof (fresh_handle_unused (tasks (stop r))) as Hf.
    rewrite Heq, Hm in Hf. discriminate. }
  split; [reflexivity|]. split; [exact Hne|].
  split; [apply lookup_insert_eq|].
  assert (<[fresh (dom (tasks (stop r))) :=
              {| state := Suspended AtStart false; ticks_completed := 0 |}]>
            (tasks (stop r)) !! old
          = Some {| state := Suspended p true;
                    ticks_completed := ticks_completed t |}) as Hold
    by (rewrite lookup_insert_ne by exact Hne; exact Hm).
  split; [exact Hold|].
  intros waits. rewrite lookup_alter_eq, Hold. reflexivity.
Qed.

Lemma restart_creates_new_task_witness :
  let r' := start (stop mid_tick) in
  _running (manager r') = true
  ∧ ∃ new, _check_task (manager r') = Some new ∧ new ≠ 0%nat.
Proof.
  intros r'.
  destruct (restart_creates_new_task mid_tick 0
              {| state := Suspended (InTick 2) false; ticks_completed := 0 |}
              (InTick 2) eq_refl eq_refl eq_refl eq_refl)
    as (Hr & new & Hc & Hne & _).
  split; [exact Hr|]. by exists new.
Defined.

(** ** Construction and the settings file *)

(** X22.  Constructing a manager writes the settings file only when the
    file is missing: it then holds the default document, and a second
    construction from it yields the same manager.  A file that exists is
    never written by the construction, so a file that cannot be decoded
    stays as it is until the first call that changes the store. *)
Theorem construction_writes_only_missing_file
    (callback : bool) (f : file) (w w' : write_outcome) :
  (f ≠ Missing → (__init__ callback f w).2 = f)
  ∧ (f = Missing → w = Written →
     (__init__ callback f w).2 = Document default_settings
     ∧ (__init__ callback (__init__ callback f w).2 w').1
       = (__init__ callback f w).1
     ∧ (__init__ callback (__init__ callback f w).2 w').2
       = Document default_settings).
Proof.
  split.
  - intros Hf. unfold __init__, _load_settings.
    destruct f as [|d|[]]; try done.
  - intros -> ->. repeat split.
Qed.

Lemma construction_writes_only_missing_file_witness :
  (__init__ false (Unloadable JSONDecodeError) Written).2
    = Unloadable JSONDecodeError
  ∧ (__init__ false Missing Written).2 = Document default_settings.
Proof.
  split.
  - apply (proj1 (construction_writes_only_missing_file false
                    (Unloadable JSONDecodeError) Written Written)).
    discriminate.
  - apply (proj2 (construction_writes_only_missing_file false Missing
                    Written Written)); reflexivity.
Defined.

Lemma perform_frame c w st :
  settings (perform c w st).2.1 = settings st.1
  ∧ check_interval (perform c w st).2.1 = check_interval st.1
  ∧ max_concurrent_streams (perform c w st).2.1 = max_concurrent_streams st.1
  ∧ default_quality (perform c w st).2.1 = default_quality st.1
  ∧ _running (perform c w st).2.1 = _running st.1
  ∧ _check_task (perform c w st).2.1 = _check_task st.1
  ∧ _currently_live (perform c w st).2.1 = _currently_live st.1.
Proof.
  destruct st as [self f]. unfold perform. cbn [fst snd].
  destruct c as [u s|u s|u].
  - rewrite add_autotuned_streamer_eq. by repeat split.
  - rewrite update_streamer_settings_eq.
    destruct (autotuned_streamers self !! lower u); by repeat split.
  - rewrite remove_autotuned_streamer_eq.
    destruct (autotuned_streamers self !! lower u); by repeat split.
Qed.

(** X23.  A call that changes the store and whose write succeeds rewrites
    the whole document from the manager: besides the store it holds the
    manager's check interval, cap and default quality, and it carries over
    the two settings the manager does not use itself, [auto_start_on_boot]
    and [notification_settings], from the document that was loaded (true
    and all-on when that document lacked them). *)
Theorem write_carries_loaded_settings
    (c : call) (self : AutotuneManager) (f : file) :
  (perform c Written (self, f)).1 = true →
  ∃ d, (perform c Written (self, f)).2.2 = Document d
    ∧ doc_autotuned_streamers d
      = Some (autotuned_streamers (perform c Written (self, f)).2.1)
    ∧ doc_check_interval d = Some (check_interval self)
    ∧ doc_max_concurrent_streams d = Some (max_concurrent_streams self)
    ∧ doc_default_quality d = Some (default_quality self)
    ∧ doc_auto_start_on_boot d
      = Some (default true (doc_auto_start_on_boot (settings self)))
    ∧ doc_notification_settings d
      = Some (default default_notification_settings
                (doc_notification_settings (settings self))).
Proof.
  unfold perform. destruct c as [u s|u s|u].
  - rewrite add_autotuned_streamer_eq. intros _. eexists. by repeat split.
  - rewrite update_streamer_settings_eq.
    destruct (autotuned_streamers self !! lower u); [|discriminate].
    intros _. eexists. by repeat split.
  - rewrite remove_autotuned_streamer_eq.
    destruct (autotuned_streamers self !! lower u); [|discriminate].
    intros _. eexists. by repeat split.
Qed.

Lemma write_carries_loaded_settings_witness :
  ∃ d, (perform (Add "Ninja" None) Written (fresh_manager, Missing)).2.2
       = Document d
    ∧ doc_auto_start_on_boot d = Some true
    ∧ doc_max_concurrent_streams d = Some 4.
Proof.
  destruct (write_carries_loaded_settings (Add "Ninja" None) fresh_manager
              Missing eq_refl) as (d & Hd & _ & _ & Hm & _ & Ha & _).
  exists d. split; [exact Hd|]. split; [exact Ha | exact Hm].
Defined.

(** X24.  No sequence of add, update and remove calls touches the live
    set recorded by the last tick, the running flag, the loop task, or the
    check interval, cap and default quality.  So a streamer that is
    removed and added again while it is recorded as live is still recorded
    as live, and a tick that follows the calls and sees no name beyond the
    recorded ones starts nothing. *)
Theorem store_calls_keep_loop_state
    (cs : list (call * write_outcome)) (self : AutotuneManager) (f : file) :
  let self' := (perform_all cs (self, f)).1 in
  _currently_live self' = _currently_live self
  ∧ _running self' = _running self
  ∧ _check_task self' = _check_task self
  ∧ check_interval self' = check_interval self
  ∧ max_concurrent_streams self' = max_concurrent_streams self
  ∧ default_quality self' = default_quality self
  ∧ ∀ (set_iter : gset string → list string) handler live clock env,
      (∀ X x, x ∈ set_iter X → x ∈ X) →
      live ⊆ _currently_live self →
      handler_after (start_autotuned_streams set_iter self' handler live
                       clock env) = handler.
Proof.
  cbv zeta.
  assert (∀ st : AutotuneManager * file,
    _currently_live (perform_all cs st).1 = _currently_live st.1
    ∧ _running (perform_all cs st).1 = _running st.1
    ∧ _check_task (perform_all cs st).1 = _check_task st.1
    ∧ check_interval (perform_all cs st).1 = check_interval st.1
    ∧ max_concurrent_streams (perform_all cs st).1
      = max_concurrent_streams st.1
    ∧ default_quality (perform_all cs st).1 = default_quality st.1) as Hframe.
  { induction cs as [|[c w] rest IH]; intros st; [by repeat split|].
    simpl. destruct (IH (perform c w st).2) as (H1 & H2 & H3 & H4 & H5 & H6).
    destruct (perform_frame c w st) as (_ & F4 & F5 & F6 & F2 & F3 & F1).
    rewrite H1, H2, H3, H4, H5, H6, F1, F2, F3, F4, F5, F6. by repeat split. }
  destruct (Hframe (self, f)) as (H1 & H2 & H3 & H4 & H5 & H6).
  do 6 (split; [assumption|]).
  intros set_iter handler live clock env Hiter Hsub.
  apply start_autotuned_streams_nothing_new; [exact Hiter|].
  simpl in H1. by rewrite H1.
Qed.

Lemma store_calls_keep_loop_state_witness :
  let self := set_currently_live {[ "ninja" ]}
                (set_autotuned_streamers {[ "ninja" := ∅ ]} fresh_manager) in
  let self' :=
    (perform_all [(Remove "ninja", Written); (Add "Ninja" None, Written)]
       (self, Missing)).1 in
  handler_after (start_autotuned_streams elements self' idle_handler
                   {[ "ninja" ]} 0 all_spawn) = idle_handler.
Proof.
  intros self self'.
  destruct (store_calls_keep_loop_state
              [(Remove "ninja", Written); (Add "Ninja" None, Written)]
              self Missing) as (_ & _ & _ & _ & _ & _ & Htick).
  apply Htick; [apply elements_sound|reflexivity].
Defined.
